(** * phi.llm.agent.duckdb : the DuckDbAgent tool adapter

    A shallow embedding of [src/phi/llm/agent/duckdb.py].  The adapter
    builds SQL text, hands it to an embedded engine and flattens the
    answer to text.  The engine ([duckdb]) and the logger are external
    collaborators: the engine is an interface ([DuckDB]) the development
    is parametric in, and every call that crosses the boundary is
    recorded in a trace so that statements about "what was submitted"
    and "how many handles were created" can be made. *)

From Stdlib Require Import String Ascii List ZArith Bool Lia.
Import ListNotations.

Local Open Scope list_scope.
Local Open Scope string_scope.

(** ** Python string primitives used by the adapter

    Strings are sequences of one-byte characters.  Every character the
    adapter searches for or inserts is ASCII, so the operations below act
    on the UTF-8 form of a Python string as Python acts on the string. *)

Module PyStr.

(** The one-character string ["\n"]. *)
Definition nl : string := String (ascii_of_nat 10) EmptyString.

Definition backtick : ascii := ascii_of_nat 96.
Definition semicolon : ascii := ";"%char.
Definition slash : ascii := "/"%char.
Definition hyphen : ascii := "-"%char.
Definition period : ascii := "."%char.
Definition space : ascii := " "%char.
Definition underscore : string := "_".

(** [s.replace(old, new)] for a one-character [old]; every call in the
    adapter has that shape. *)
Fixpoint replace (old : ascii) (new : string) (s : string) : string :=
  match s with
  | EmptyString => EmptyString
  | String c s' =>
      if Ascii.eqb c old then new ++ replace old new s'
      else String c (replace old new s')
  end.

(** [s.split(sep)] for a one-character [sep]: the list of the maximal
    segments between separators, never empty. *)
Fixpoint split (sep : ascii) (s : string) : list string :=
  match s with
  | EmptyString => [EmptyString]
  | String c s' =>
      if Ascii.eqb c sep then EmptyString :: split sep s'
      else match split sep s' with
           | [] => [String c EmptyString]
           | w :: ws => String c w :: ws
           end
  end.

(** [l[0]] and [l[-1]] on the result of a [split]; the default is never
    reached because [split] returns at least one segment
    ([split_not_nil]). *)
Definition first (l : list string) : string := hd EmptyString l.
Definition final (l : list string) : string := last l EmptyString.

(** [sep.join(l)]. *)
Definition join (sep : string) (l : list string) : string :=
  String.concat sep l.

(** [s.rfind(c)]: the highest index of [c] in [s], or [-1]. *)
Fixpoint rfind_from (c : ascii) (s : string) (i : Z) (best : Z) : Z :=
  match s with
  | EmptyString => best
  | String a s' =>
      rfind_from c s' (i + 1) (if Ascii.eqb a c then i else best)
  end.

Definition rfind (c : ascii) (s : string) : Z := rfind_from c s 0 (-1).

(** [p[lo:]] and [p[:hi]] for indices within bounds. *)
Definition slice_to (p : string) (hi : Z) : string :=
  substring 0 (Z.to_nat hi) p.
Definition slice_from (p : string) (lo : Z) : string :=
  substring (Z.to_nat lo) (String.length p - Z.to_nat lo) p.

(** The loop of [genericpath._splitext] that skips leading dots:
    starting at [filenameIndex], it looks below [dotIndex] for a
    character that is not the extension separator.  [n] counts the
    positions left to visit. *)
Fixpoint has_non_dot (p : string) (filenameIndex : nat) (n : nat) : bool :=
  match n with
  | O => false
  | S n' =>
      match String.get filenameIndex p with
      | Some a =>
          if Ascii.eqb a period then has_non_dot p (S filenameIndex) n'
          else true
      | None => true
      end
  end.

(** [os.path.splitext] of the POSIX flavour (separator ["/"], extension
    separator ["."], no alternative separator), as in the Python
    standard library. *)
Definition splitext (p : string) : string * string :=
  let sepIndex := rfind slash p in
  let dotIndex := rfind period p in
  if (dotIndex >? sepIndex)%Z then
    let filenameIndex := (sepIndex + 1)%Z in
    if has_non_dot p (Z.to_nat filenameIndex)
                   (Z.to_nat (dotIndex - filenameIndex))
    then (slice_to p dotIndex, slice_from p dotIndex)
    else (p, EmptyString)
  else (p, EmptyString).

(** [c in s] for a one-character [c]. *)
Fixpoint contains (c : ascii) (s : string) : bool :=
  match s with
  | EmptyString => false
  | String a s' => Ascii.eqb a c || contains c s'
  end.

End PyStr.

(** ** Exceptions

    Only exceptions derived from Python's [Exception] are modelled: these
    are the ones the engine and the adapter raise.  An exception carries
    its class, as far as the [except] clauses of the adapter tell classes
    apart, and its message [str(e)]. *)

Inductive exn_class : Type :=
| ProgrammingError   (* duckdb.ProgrammingError, a duckdb.Error *)
| DuckDBError        (* any other duckdb.Error *)
| AttributeError
| OtherException.

Record exn : Type := Exn { exn_cls : exn_class; exn_str : string }.

Definition is_ProgrammingError (e : exn) : bool :=
  match exn_cls e with ProgrammingError => true | _ => false end.

Definition is_duckdb_Error (e : exn) : bool :=
  match exn_cls e with ProgrammingError | DuckDBError => true | _ => false end.

Definition is_AttributeError (e : exn) : bool :=
  match exn_cls e with AttributeError => true | _ => false end.

Definition is_Exception (e : exn) : bool := true.

(** ** The engine interface

    What the adapter consumes from the [duckdb] package: [connect],
    [DuckDBPyConnection.sql] (which answers [None] or a result object),
    and on a result object [fetchall], [columns] and [str].  [connect],
    [sql], [fetchall] and [columns] may raise, and the first three also
    move the engine's state; the conversions to text ([str] of a value of
    a row and of a result object) are taken to succeed. *)

Record DuckDB : Type := {
  value : Type;
  str_value : value -> string;
  conn : Type;
  relation : Type;
  engine : Type;
  connect : string -> engine -> engine * (exn + conn);
  sql : conn -> string -> engine -> engine * (exn + option relation);
  fetchall : relation -> engine -> engine * (exn + list (list value));
  columns : relation -> exn + list string;
  str_relation : relation -> string
}.

Inductive level : Type := DEBUG | WARNING | EXCEPTION.

Section Agent.

Variable D : DuckDB.

(** Calls that leave the adapter, in the order they are made. *)
Inductive event : Type :=
| Connect (path : string) (handle : option (conn D))
| Sql (c : conn D) (stmt : string)
| Log (lvl : level) (msg : string).

(** The adapter instance ([self]) together with the world it talks to. *)
Record state : Type := State {
  db_path : string;
  s3_region : string;
  _duckdb_connection : option (conn D);
  eng : engine D;
  trace : list event
}.

(** *** Computations that read and write the state and may raise *)

Definition M (A : Type) : Type := state -> state * (exn + A).

Definition ret {A} (a : A) : M A := fun st => (st, inr a).

Definition raise {A} (e : exn) : M A := fun st => (st, inl e).

Definition bind {A B} (m : M A) (k : A -> M B) : M B :=
  fun st =>
    match m st with
    | (st', inr a) => k a st'
    | (st', inl e) => (st', inl e)
    end.

(** [try: m  except ...: h]; [h e = None] when no clause matches [e]. *)
Definition try_except {A} (m : M A) (h : exn -> option (M A)) : M A :=
  fun st =>
    match m st with
    | (st', inr a) => (st', inr a)
    | (st', inl e) =>
        match h e with
        | Some k => k st'
        | None => (st', inl e)
        end
    end.

Definition emit (ev : event) (st : state) : state :=
  State (db_path st) (s3_region st) (_duckdb_connection st) (eng st)
        (trace st ++ [ev])%list.

Definition set_eng (g : engine D) (st : state) : state :=
  State (db_path st) (s3_region st) (_duckdb_connection st) g (trace st).

Definition set_connection (c : conn D) (st : state) : state :=
  State (db_path st) (s3_region st) (Some c) (eng st) (trace st).

Definition logger (lvl : level) (msg : string) : M unit :=
  fun st => (emit (Log lvl msg) st, inr tt).

Definition get_connection_field : M (option (conn D)) :=
  fun st => (st, inr (_duckdb_connection st)).

Definition set_connection_field (c : conn D) : M unit :=
  fun st => (set_connection c st, inr tt).

Definition get_db_path : M string := fun st => (st, inr (db_path st)).
Definition get_s3_region : M string := fun st => (st, inr (s3_region st)).

(** [duckdb.connect(path)] *)
Definition duckdb_connect (path : string) : M (conn D) :=
  fun st =>
    let '(g, r) := connect D path (eng st) in
    (emit (Connect path match r with inr c => Some c | inl _ => None end)
          (set_eng g st),
     r).

(** [c.sql(stmt)] *)
Definition conn_sql (c : conn D) (stmt : string) : M (option (relation D)) :=
  fun st =>
    let '(g, r) := sql D c stmt (eng st) in
    (emit (Sql c stmt) (set_eng g st), r).

(** [query_result.fetchall()] *)
Definition rel_fetchall (q : relation D) : M (list (list (value D))) :=
  fun st =>
    let '(g, r) := fetchall D q (eng st) in
    (set_eng g st, r).

(** [query_result.columns] *)
Definition rel_columns (q : relation D) : M (list string) :=
  fun st => (st, columns D q).

End Agent.

Arguments Connect {D} path handle.
Arguments Sql {D} c stmt.
Arguments Log {D} lvl msg.
Arguments emit {D} ev st.
Arguments set_eng {D} g st.
Arguments set_connection {D} c st.
Arguments State {D} db_path s3_region _duckdb_connection eng trace.
Arguments ret {D A} a.
Arguments raise {D A} e.
Arguments bind {D A B} m k.
Arguments try_except {D A} m h.
Arguments logger {D} lvl msg.
Arguments get_connection_field {D}.
Arguments set_connection_field {D} c.
Arguments get_db_path {D}.
Arguments get_s3_region {D}.
Arguments duckdb_connect {D} path.
Arguments conn_sql {D} c stmt.
Arguments rel_fetchall {D} q.
Arguments rel_columns {D} q.
Arguments db_path {D} s.
Arguments s3_region {D} s.
Arguments _duckdb_connection {D} s.
Arguments eng {D} s.
Arguments trace {D} s.

Declare Scope agent_scope.
Delimit Scope agent_scope with agent.
Notation "x <- m ;; k" := (bind m (fun x => k))
  (at level 61, m at next level, right associativity) : agent_scope.
Notation "m ;; k" := (bind m (fun _ => k))
  (at level 61, right associativity) : agent_scope.

(** ** The adapter: class [DuckDbAgent] *)

Section DuckDbAgent.

Context {D : DuckDB}.

Local Open Scope agent_scope.

(** [__init__]: the registration of the five tools with the function
    registry has no effect on what follows and is left out. *)
Definition init (db_path s3_region : string)
           (duckdb_connection : option (conn D)) (g : engine D) : state D :=
  State db_path s3_region duckdb_connection g [].

Definition default_db_path : string := ":memory:".
Definition default_s3_region : string := "us-east-1".

(** The [try] block of the connection accessor: the three setup
    statements, in order. *)
Definition httpfs_setup (c : conn D) : M D unit :=
  conn_sql c "INSTALL httpfs;" ;;
  conn_sql c "LOAD httpfs;" ;;
  region <- get_s3_region ;;
  conn_sql c ("SET s3_region='" ++ region ++ "';") ;;
  ret tt.

Definition httpfs_warning : string :=
  "Failed to install httpfs extension. Only local files will be supported".

(** The property [duckdb_connection]. *)
Definition duckdb_connection : M D (conn D) :=
  field <- get_connection_field ;;
  match field with
  | Some c => ret c
  | None =>
      path <- get_db_path ;;
      c <- duckdb_connect path ;;
      set_connection_field c ;;
      try_except (httpfs_setup c)
        (fun e =>
           if is_Exception e then
             Some (logger EXCEPTION (exn_str e) ;;
                   logger WARNING httpfs_warning)
           else None) ;;
      ret c
  end.

(** The formatting of the SQL text at the head of [run_duckdb_query]. *)
Definition format_sql (query : string) : string :=
  let formatted_sql := PyStr.replace PyStr.backtick "" query in
  PyStr.first (PyStr.split PyStr.semicolon formatted_sql).

(** One turn of the loop over the fetched rows. *)
Definition append_row (result_rows : list string) (row : list (value D))
  : list string :=
  if Nat.eqb (List.length row) 1 then
    (result_rows ++ [match row with
                     | x :: _ => str_value D x
                     | [] => ""
                     end])%list
  else
    (result_rows ++ [PyStr.join "," (map (str_value D) row)])%list.

Definition render_rows (results_as_python_objects : list (list (value D)))
  : list string :=
  fold_left append_row results_as_python_objects [].

(** The inner [try] of [run_duckdb_query]: flattening a result object. *)
Definition flatten_result (query_result : relation D) : M D string :=
  try_except
    (results_as_python_objects <- rel_fetchall query_result ;;
     let result_rows := render_rows results_as_python_objects in
     let result_data := PyStr.join PyStr.nl result_rows in
     cols <- rel_columns query_result ;;
     ret (PyStr.join "," cols ++ PyStr.nl ++ result_data))
    (fun e =>
       if is_AttributeError e then Some (ret (str_relation D query_result))
       else None).

Definition run_duckdb_query (query : string) : M D string :=
  let formatted_sql := format_sql query in
  try_except
    (logger DEBUG ("Running query: " ++ formatted_sql) ;;
     c <- duckdb_connection ;;
     query_result <- conn_sql c formatted_sql ;;
     result_output <- match query_result with
                      | None => ret "No output"
                      | Some q => flatten_result q
                      end ;;
     logger DEBUG ("Query result: " ++ result_output) ;;
     ret result_output)
    (fun e =>
       if is_ProgrammingError e then Some (ret (exn_str e))
       else if is_duckdb_Error e then Some (ret (exn_str e))
       else if is_Exception e then Some (ret (exn_str e))
       else None).

Definition show_tables : M D string :=
  let stmt := "SHOW TABLES;" in
  tables <- run_duckdb_query stmt ;;
  logger DEBUG ("Tables: " ++ tables) ;;
  ret tables.

Definition describe_table (table : string) : M D string :=
  let stmt := "DESCRIBE " ++ table ++ ";" in
  table_description <- run_duckdb_query stmt ;;
  logger DEBUG ("Table description: " ++ table_description) ;;
  ret (table ++ PyStr.nl ++ table_description).

Definition inspect_query (query : string) : M D string :=
  let stmt := "explain " ++ query ++ ";" in
  explain_plan <- run_duckdb_query stmt ;;
  logger DEBUG ("Explain plan: " ++ explain_plan) ;;
  ret explain_plan.

Definition describe_table_or_view (table : string) : M D string :=
  let stmt :=
    "select column_name, data_type from information_schema.columns where table_name='"
      ++ table ++ "';" in
  table_description <- run_duckdb_query stmt ;;
  logger DEBUG ("Table description: " ++ table_description) ;;
  ret (table ++ PyStr.nl ++ table_description).

(** The table name the four loaders derive from a path when none is
    given. *)
Definition derive_table_name (path : string) : string :=
  let file_name := PyStr.final (PyStr.split PyStr.slash path) in
  let '(table_name, extension) := PyStr.splitext file_name in
  PyStr.replace PyStr.slash PyStr.underscore
    (PyStr.replace PyStr.space PyStr.underscore
       (PyStr.replace PyStr.period PyStr.underscore
          (PyStr.replace PyStr.hyphen PyStr.underscore table_name))).

Definition choose_table_name (path : string) (table_name : option string)
  : string :=
  match table_name with
  | None => derive_table_name path
  | Some given => given
  end.

Definition path_create_statement (table_name path : string) : string :=
  "CREATE OR REPLACE TABLE '" ++ table_name ++ "' AS SELECT * FROM '"
    ++ path ++ "';".

Definition csv_select_statement (path : string) (delimiter : option string)
  : string :=
  let select_statement := "SELECT * FROM read_csv('" ++ path ++ "'" in
  match delimiter with
  | Some d => select_statement ++ ", delim='" ++ d ++ "')"
  | None => select_statement ++ ")"
  end.

Definition csv_create_statement (table_name path : string)
           (delimiter : option string) : string :=
  "CREATE OR REPLACE TABLE '" ++ table_name ++ "' AS "
    ++ csv_select_statement path delimiter ++ ";".

Definition load_local_path_to_table (path : string)
           (table_name : option string) : M D (string * string) :=
  logger DEBUG ("Loading " ++ path ++ " into duckdb") ;;
  let table_name := choose_table_name path table_name in
  let create_statement := path_create_statement table_name path in
  run_duckdb_query create_statement ;;
  logger DEBUG ("Loaded " ++ path ++ " into duckdb as " ++ table_name) ;;
  ret (table_name, create_statement).

Definition load_local_csv_to_table (path : string)
           (table_name : option string) (delimiter : option string)
  : M D (string * string) :=
  logger DEBUG ("Loading " ++ path ++ " into duckdb") ;;
  let table_name := choose_table_name path table_name in
  let create_statement := csv_create_statement table_name path delimiter in
  run_duckdb_query create_statement ;;
  logger DEBUG ("Loaded CSV " ++ path ++ " into duckdb as " ++ table_name) ;;
  ret (table_name, create_statement).

Definition load_s3_path_to_table (s3_path : string)
           (table_name : option string) : M D (string * string) :=
  logger DEBUG ("Loading " ++ s3_path ++ " into duckdb") ;;
  let table_name := choose_table_name s3_path table_name in
  let create_statement := path_create_statement table_name s3_path in
  run_duckdb_query create_statement ;;
  logger DEBUG ("Loaded " ++ s3_path ++ " into duckdb as " ++ table_name) ;;
  ret (table_name, create_statement).

Definition load_s3_csv_to_table (s3_path : string)
           (table_name : option string) (delimiter : option string)
  : M D (string * string) :=
  logger DEBUG ("Loading " ++ s3_path ++ " into duckdb") ;;
  let table_name := choose_table_name s3_path table_name in
  let create_statement := csv_create_statement table_name s3_path delimiter in
  run_duckdb_query create_statement ;;
  logger DEBUG ("Loaded CSV " ++ s3_path ++ " into duckdb as " ++ table_name) ;;
  ret (table_name, create_statement).

End DuckDbAgent.

(** ** What the specification says, in its own words

    These definitions do not come from the source: they spell out
    "all backticks removed", "the substring before the first separator"
    and "the text of a row", to be compared with what the code computes. *)

Module Spec.

(** The string with every occurrence of [c] dropped. *)
Fixpoint without (c : ascii) (s : string) : string :=
  match s with
  | EmptyString => EmptyString
  | String a s' =>
      if Ascii.eqb a c then without c s' else String a (without c s')
  end.

(** The part of [s] before the first [c], all of [s] when there is none. *)
Fixpoint before_first (c : ascii) (s : string) : string :=
  match s with
  | EmptyString => EmptyString
  | String a s' =>
      if Ascii.eqb a c then EmptyString else String a (before_first c s')
  end.

(** A row of one value is that value's text; any other row is its
    values' texts joined by commas. *)
Definition row_text {D : DuckDB} (row : list (value D)) : string :=
  match row with
  | [x] => str_value D x
  | _ => String.concat "," (map (str_value D) row)
  end.

(** The flattened text of a table. *)
Definition table_text {D : DuckDB} (cols : list string)
           (rows : list (list (value D))) : string :=
  String.concat "," cols ++ PyStr.nl
    ++ String.concat PyStr.nl (map row_text rows).

End Spec.

(** ** Reading the trace *)

Section Trace.

Context {D : DuckDB}.

(** The statements handed to [sql], with the handle they went to. *)
Fixpoint sql_calls (t : list (@event D)) : list (conn D * string) :=
  match t with
  | [] => []
  | Sql c stmt :: t' => (c, stmt) :: sql_calls t'
  | _ :: t' => sql_calls t'
  end.

(** The handles [duckdb.connect] has returned. *)
Fixpoint handles_created (t : list (@event D)) : list (conn D) :=
  match t with
  | [] => []
  | Connect _ (Some c) :: t' => c :: handles_created t'
  | _ :: t' => handles_created t'
  end.

(** The number of calls to [duckdb.connect], failed ones included. *)
Fixpoint connect_calls (t : list (@event D)) : nat :=
  match t with
  | [] => 0
  | Connect _ _ :: t' => S (connect_calls t')
  | _ :: t' => connect_calls t'
  end.

(** The messages the logger received at the given level. *)
Fixpoint logged (lvl : level) (t : list (@event D)) : list string :=
  match t with
  | [] => []
  | Log l msg :: t' =>
      match l, lvl with
      | DEBUG, DEBUG | WARNING, WARNING | EXCEPTION, EXCEPTION =>
          msg :: logged lvl t'
      | _, _ => logged lvl t'
      end
  | _ :: t' => logged lvl t'
  end.

(** The three statements of the connection setup. *)
Definition setup_statements (region : string) : list string :=
  ["INSTALL httpfs;"; "LOAD httpfs;"; "SET s3_region='" ++ region ++ "';"].

(** A caller of the adapter: any sequence of uses of the instance.  A
    caller may go on after a call that raised, so the sequence is run
    to its end whatever the outcomes. *)
Inductive call : Type :=
| GetConnection
| RunDuckdbQuery (query : string)
| ShowTables
| DescribeTable (table : string)
| InspectQuery (query : string)
| DescribeTableOrView (table : string)
| LoadLocalPath (path : string) (table_name : option string)
| LoadLocalCsv (path : string) (table_name delimiter : option string)
| LoadS3Path (s3_path : string) (table_name : option string)
| LoadS3Csv (s3_path : string) (table_name delimiter : option string).

Definition perform (c : call) (st : state D) : state D :=
  match c with
  | GetConnection => fst (duckdb_connection st)
  | RunDuckdbQuery q => fst (run_duckdb_query q st)
  | ShowTables => fst (show_tables st)
  | DescribeTable t => fst (describe_table t st)
  | InspectQuery q => fst (inspect_query q st)
  | DescribeTableOrView t => fst (describe_table_or_view t st)
  | LoadLocalPath p n => fst (load_local_path_to_table p n st)
  | LoadLocalCsv p n d => fst (load_local_csv_to_table p n d st)
  | LoadS3Path p n => fst (load_s3_path_to_table p n st)
  | LoadS3Csv p n d => fst (load_s3_csv_to_table p n d st)
  end.

Definition perform_all (cs : list call) (st : state D) : state D :=
  fold_left (fun s c => perform c s) cs st.

(** The state in which [run_duckdb_query] reaches for the connection:
    the caller's state after the first debug line. *)
Definition entering (query : string) (st : state D) : state D :=
  emit (Log DEBUG ("Running query: " ++ format_sql query)) st.

(** How one use of the adapter may move the state: the configuration
    stays, the trace only grows, an existing handle stays and receives
    every statement, and without one at most one is created. *)
Definition log_events (logs : list (level * string)) : list (@event D) :=
  map (fun p => Log (fst p) (snd p)) logs.

(** The state in which the setup statements run: the engine has
    answered [connect] with [c] and the field has been assigned. *)
Definition connected (st : state D) (g : engine D) (c : conn D) : state D :=
  set_connection c (emit (Connect (db_path st) (Some c)) (set_eng g st)).

Definition to_handle (h : conn D) (p : conn D * string) : Prop := fst p = h.

Definition Step (st st' : state D) : Prop :=
  db_path st' = db_path st /\ s3_region st' = s3_region st /\
  exists evs,
    trace st' = (trace st ++ evs)%list /\
    match _duckdb_connection st with
    | Some h =>
        _duckdb_connection st' = Some h /\ connect_calls evs = 0
        /\ Forall (to_handle h) (sql_calls evs)
    | None =>
        (_duckdb_connection st' = None /\ handles_created evs = []
         /\ sql_calls evs = [])
        \/ (exists c, _duckdb_connection st' = Some c
                      /\ handles_created evs = [c]
                      /\ Forall (to_handle c) (sql_calls evs))
    end.

(** What one call with statement text [formatted] may submit: with a
    handle in place, that text alone; without one, nothing when no
    handle can be had, else the setup statements (up to the first that
    fails) and then the text, all on the fresh handle. *)
Definition submits (formatted : string) (st : state D)
           (evs : list (@event D)) : Prop :=
  match _duckdb_connection st with
  | Some h => sql_calls evs = [(h, formatted)]
  | None =>
      (handles_created evs = [] /\ sql_calls evs = [])
      \/ (exists c pre post,
             handles_created evs = [c] /\
             setup_statements (s3_region st) = (pre ++ post)%list /\
             sql_calls evs = (map (pair c) pre ++ [(c, formatted)])%list)
  end.

(** Where the engine can raise once [run_duckdb_query] has its handle:
    while it executes the statement, or while the result it answered
    with is materialised. *)
Inductive phase : Type :=
| Executing
| Materialising (query_result : relation D).

(** [fault query st ph e]: in the call [run_duckdb_query query] from
    state [st], the accessor has given a handle and the engine raises
    [e], either in [sql] on the formatted statement ([Executing]) or in
    [fetchall] or [columns] on the result object ([Materialising]). *)
Inductive fault (query : string) (st : state D) : phase -> exn -> Prop :=
| fault_sql st1 c g e :
    duckdb_connection (entering query st) = (st1, inr c) ->
    sql D c (format_sql query) (eng st1) = (g, inl e) ->
    fault query st Executing e
| fault_fetchall st1 c g q g' e :
    duckdb_connection (entering query st) = (st1, inr c) ->
    sql D c (format_sql query) (eng st1) = (g, inr (Some q)) ->
    fetchall D q g = (g', inl e) ->
    fault query st (Materialising q) e
| fault_columns st1 c g q g' rows e :
    duckdb_connection (entering query st) = (st1, inr c) ->
    sql D c (format_sql query) (eng st1) = (g, inr (Some q)) ->
    fetchall D q g = (g', inr rows) ->
    columns D q = inl e ->
    fault query st (Materialising q) e.

(** The string the call answers a fault with. *)
Definition reported (ph : phase) (e : exn) : string :=
  match ph with
  | Materialising q =>
      if is_AttributeError e then str_relation D q else exn_str e
  | Executing => exn_str e
  end.

(** A loader [m] answers with [name] and [stmt], having passed [stmt]
    through Execute Query. *)
Definition loads (m : M D (string * string)) (name stmt : string) : Prop :=
  forall st,
    snd (m st) = inr (name, stmt) /\
    exists evs,
      trace (fst (m st)) = (trace st ++ evs)%list /\
      submits (format_sql stmt) st evs.

End Trace.

(** ** A small engine to run the adapter on

    Handles are numbered from the engine's counter, every statement is
    answered from a fixed table [answer], and result objects carry their
    rows, columns and text (any of the first two may be a fault). *)

Record toy_relation : Type := ToyRelation {
  toy_columns : exn + list string;
  toy_rows : exn + list (list string);
  toy_str : string
}.

Definition toy (can_connect : bool)
           (answer : string -> exn + option toy_relation) : DuckDB :=
  {| value := string;
     str_value := fun x => x;
     conn := nat;
     relation := toy_relation;
     engine := nat;
     connect := fun path n =>
       if can_connect then (S n, inr n)
       else (n, inl (Exn DuckDBError ("IO Error: Cannot open file " ++ path)));
     sql := fun _ stmt n => (n, answer stmt);
     fetchall := fun q n => (n, toy_rows q);
     columns := toy_columns;
     str_relation := toy_str |}.

(** An engine with no tables: it lists none, and knows no other name. *)
Definition empty_db_answer (stmt : string) : exn + option toy_relation :=
  if String.eqb stmt "SHOW TABLES" then
    inr (Some (ToyRelation (inr ["name"]) (inr []) "<relation>"))
  else if String.prefix "CREATE" stmt then inr None
  else if String.prefix "INSTALL" stmt then
    inl (Exn DuckDBError "IO Error: Failed to download extension")
  else inl (Exn DuckDBError "Catalog Error: Table does not exist!").

(** An engine that answers every statement with the same two-column
    table. *)
Definition people : toy_relation :=
  ToyRelation (inr ["id"; "name"]) (inr [["1"; "ada"]; ["2"; "bob"]])
              "<relation>".

Definition people_answer (stmt : string) : exn + option toy_relation :=
  inr (Some people).

(** An engine whose results cannot be fetched. *)
Definition opaque_result : toy_relation :=
  ToyRelation (inr ["id"]) (inl (Exn AttributeError "no attribute fetchall"))
              "<opaque result>".

Definition opaque_answer (stmt : string) : exn + option toy_relation :=
  inr (Some opaque_result).

(** A fresh adapter with the constructor's defaults on a toy engine. *)
Definition toy_fresh (can_connect : bool)
           (answer : string -> exn + option toy_relation)
  : state (toy can_connect answer) :=
  @init (toy can_connect answer) default_db_path default_s3_region None 0.

(** ** Statements that pass the formatting, and handles that are kept *)

Section Kept.

Context {D : DuckDB}.

(** A statement with no semicolon and no backtick in it. *)
Definition formatted (stmt : string) : bool :=
  negb (PyStr.contains PyStr.semicolon stmt)
  && negb (PyStr.contains PyStr.backtick stmt).

(** [Kept h st st']: if [st] holds the handle [h], then so does [st'],
    the configuration is the same, and what was added to the trace has
    no [connect] in it and only statements to [h] that are [formatted]. *)
Definition Kept (h : conn D) (st st' : state D) : Prop :=
  _duckdb_connection st = Some h ->
  _duckdb_connection st' = Some h
  /\ db_path st' = db_path st /\ s3_region st' = s3_region st
  /\ exists evs,
       trace st' = (trace st ++ evs)%list
       /\ connect_calls evs = 0
       /\ Forall (fun p => fst p = h /\ formatted (snd p) = true)
                 (sql_calls evs).

End Kept.

(** ** Statements submitted one after the other until one fails *)

Section UntilFailure.

Context {D : DuckDB}.

(** Submitting [stmts] to [c] in order from engine state [g], stopping
    at the first statement on which the engine raises: the statements
    submitted (the failing one included), the engine state reached, and
    the exception if there was one. *)
Fixpoint submitted_until_failure (c : conn D) (stmts : list string)
         (g : engine D) : list string * engine D * option exn :=
  match stmts with
  | [] => ([], g, None)
  | stmt :: rest =>
      match sql D c stmt g with
      | (g', inl e) => ([stmt], g', Some e)
      | (g', inr _) =>
          let '(l, g'', r) := submitted_until_failure c rest g' in
          (stmt :: l, g'', r)
      end
  end.

End UntilFailure.

(** An engine on which the extension installs but does not load. *)
Definition no_load_answer (stmt : string) : exn + option toy_relation :=
  if String.eqb stmt "LOAD httpfs;" then
    inl (Exn DuckDBError "IO Error: Extension httpfs not found")
  else inr (Some people).

(** * Properties *)

(** ** Strings *)

Example splitext_csv : PyStr.splitext "my-data file.csv" = ("my-data file", ".csv").
Proof. reflexivity. Qed.
Example splitext_hidden : PyStr.splitext ".bashrc" = (".bashrc", "").
Proof. reflexivity. Qed.
Example splitext_two : PyStr.splitext "a.tar.gz" = ("a.tar", ".gz").
Proof. reflexivity. Qed.
Example splitext_dots : PyStr.splitext "..x" = ("..x", "").
Proof. reflexivity. Qed.
Example split_ex : PyStr.split ";" "a;b;" = ["a"; "b"; ""].
Proof. reflexivity. Qed.
Example first_of_split : PyStr.first (PyStr.split ";" "a;b;") = "a".
Proof. reflexivity. Qed.
Example final_of_split : PyStr.final (PyStr.split "/" "s3://b/k/x.csv") = "x.csv".
Proof. reflexivity. Qed.
Example replace_ex : PyStr.replace "-" "_" "a-b-c" = "a_b_c".
Proof. reflexivity. Qed.

Section StringFacts.

Import PyStr.

Lemma contains_app c a b :
  contains c (a ++ b) = contains c a || contains c b.
Proof.
  induction a as [|x a IH]; simpl; [reflexivity|].
  now rewrite IH, orb_assoc.
Qed.

Lemma replace_removes old new s :
  contains old new = false -> contains old (replace old new s) = false.
Proof.
  intros Hnew. induction s as [|x s IH]; simpl; [reflexivity|].
  destruct (Ascii.eqb x old) eqn:E.
  - now rewrite contains_app, Hnew, IH.
  - simpl. now rewrite E, IH.
Qed.

Lemma replace_keeps_absent c old new s :
  contains c s = false -> contains c new = false ->
  contains c (replace old new s) = false.
Proof.
  intros Hs Hnew. induction s as [|x s IH]; simpl in *; [reflexivity|].
  apply orb_false_iff in Hs as [Hx Hs].
  destruct (Ascii.eqb x old).
  - now rewrite contains_app, Hnew, IH.
  - simpl. now rewrite Hx, IH.
Qed.

Lemma replace_empty_without c s : replace c "" s = Spec.without c s.
Proof.
  induction s as [|x s IH]; simpl; [reflexivity|].
  destruct (Ascii.eqb x c); simpl; now rewrite IH.
Qed.

Lemma split_not_nil sep s : split sep s <> [].
Proof.
  destruct s as [|x s]; simpl; [discriminate|].
  destruct (Ascii.eqb x sep); [discriminate|].
  destruct (split sep s); discriminate.
Qed.

Lemma first_split sep s : first (split sep s) = Spec.before_first sep s.
Proof.
  induction s as [|x s IH]; simpl; [reflexivity|].
  destruct (Ascii.eqb x sep); [reflexivity|].
  unfold first in IH.
  destruct (split sep s) as [|w ws] eqn:E.
  - now destruct (split_not_nil sep s).
  - simpl in *. now rewrite IH.
Qed.

Lemma before_first_stops c s : contains c (Spec.before_first c s) = false.
Proof.
  induction s as [|x s IH]; simpl; [reflexivity|].
  destruct (Ascii.eqb x c) eqn:E; simpl; [reflexivity|].
  now rewrite E, IH.
Qed.

Lemma before_first_keeps_absent b c s :
  contains b s = false -> contains b (Spec.before_first c s) = false.
Proof.
  induction s as [|x s IH]; simpl; [reflexivity|]. intros H.
  apply orb_false_iff in H as [Hx Hs].
  destruct (Ascii.eqb x c); simpl; [reflexivity|].
  now rewrite Hx, IH.
Qed.

Lemma without_removes c s : contains c (Spec.without c s) = false.
Proof.
  induction s as [|x s IH]; simpl; [reflexivity|].
  destruct (Ascii.eqb x c) eqn:E; simpl; [assumption|].
  now rewrite E, IH.
Qed.


Lemma before_first_app c a b :
  contains c a = false ->
  Spec.before_first c (a ++ String c b) = a.
Proof.
  induction a as [|x a IH]; simpl.
  - now rewrite Ascii.eqb_refl.
  - intros H. apply orb_false_iff in H as [Hx Ha].
    now rewrite Hx, IH.
Qed.

Lemma without_absent c s : contains c s = false -> Spec.without c s = s.
Proof.
  induction s as [|x s IH]; simpl; [reflexivity|]. intros H.
  apply orb_false_iff in H as [Hx Hs]. now rewrite Hx, IH.
Qed.

Lemma before_first_absent c s :
  contains c s = false -> Spec.before_first c s = s.
Proof.
  induction s as [|x s IH]; simpl; [reflexivity|]. intros H.
  apply orb_false_iff in H as [Hx Hs]. now rewrite Hx, IH.
Qed.

End StringFacts.

(** The text [run_duckdb_query] hands on is the query without its
    backticks, cut before its first semicolon. *)
Lemma format_sql_spec query :
  format_sql query
  = Spec.before_first PyStr.semicolon (Spec.without PyStr.backtick query).
Proof.
  unfold format_sql. now rewrite first_split, replace_empty_without.
Qed.

Lemma derive_table_name_clean path c :
  PyStr.contains c PyStr.underscore = false ->
  c = PyStr.hyphen \/ c = PyStr.period \/ c = PyStr.space \/ c = PyStr.slash ->
  PyStr.contains c (derive_table_name path) = false.
Proof.
  intros Hu Hc. unfold derive_table_name.
  destruct (PyStr.splitext _) as [table_name extension].
  destruct Hc as [-> | [-> | [-> | ->]]].
  - do 3 (apply replace_keeps_absent; [|reflexivity]).
    now apply replace_removes.
  - do 2 (apply replace_keeps_absent; [|reflexivity]).
    now apply replace_removes.
  - apply replace_keeps_absent; [|reflexivity].
    now apply replace_removes.
  - now apply replace_removes.
Qed.

(** ** Traces *)

Section TraceFacts.

Context {D : DuckDB}.
Implicit Types t u : list (@event D).

Lemma sql_calls_app t u : sql_calls (t ++ u) = (sql_calls t ++ sql_calls u)%list.
Proof.
  induction t as [|[p h|c stmt|l m] t IH]; simpl; try assumption;
    [reflexivity | now rewrite IH].
Qed.

Lemma handles_created_app t u :
  handles_created (t ++ u) = (handles_created t ++ handles_created u)%list.
Proof.
  induction t as [|[p [h|]|c stmt|l m] t IH]; simpl; try assumption;
    [reflexivity | now rewrite IH].
Qed.

Lemma connect_calls_app t u :
  connect_calls (t ++ u) = connect_calls t + connect_calls u.
Proof.
  induction t as [|[p h|c stmt|l m] t IH]; simpl; try assumption;
    [reflexivity | now rewrite IH].
Qed.

Lemma no_connect_no_handle t : connect_calls t = 0 -> handles_created t = [].
Proof.
  induction t as [|[p h|c stmt|l m] t IH]; simpl; auto. discriminate.
Qed.

Lemma logged_app lvl t u :
  logged lvl (t ++ u) = (logged lvl t ++ logged lvl u)%list.
Proof.
  induction t as [|[p h|c stmt|l m] t IH]; simpl; try assumption;
    [reflexivity|].
  destruct l, lvl; simpl; now rewrite ?IH.
Qed.

(** *** [Step] is a preorder, and the primitive moves are steps *)

Lemma Step_refl (st : state D) : Step st st.
Proof.
  repeat split. exists []. rewrite app_nil_r. split; [reflexivity|].
  destruct (_duckdb_connection st); [|left]; repeat split; constructor.
Qed.

Lemma Step_trans (a b c : state D) : Step a b -> Step b c -> Step a c.
Proof.
  intros (Hp1 & Hr1 & e1 & Ht1 & H1) (Hp2 & Hr2 & e2 & Ht2 & H2).
  split; [congruence|]. split; [congruence|].
  exists (e1 ++ e2)%list. split; [now rewrite Ht2, Ht1, app_assoc|].
  rewrite sql_calls_app, handles_created_app, connect_calls_app.
  destruct (_duckdb_connection a) as [h|].
  - destruct H1 as (F1 & C1 & S1). rewrite F1 in H2.
    destruct H2 as (F2 & C2 & S2).
    repeat split; [assumption | lia | now apply Forall_app].
  - destruct H1 as [(F1 & C1 & S1) | (h & F1 & C1 & S1)]; rewrite F1 in H2.
    + rewrite C1, S1. simpl. exact H2.
    + destruct H2 as (F2 & C2 & S2). right. exists h.
      rewrite C1, (no_connect_no_handle _ C2).
      repeat split; [assumption | now apply Forall_app].
Qed.

Lemma Step_log lvl msg (st : state D) : Step st (emit (Log lvl msg) st).
Proof.
  repeat split. exists [Log lvl msg]. split; [reflexivity|]. simpl.
  destruct (_duckdb_connection st); [|left]; repeat split; constructor.
Qed.

End TraceFacts.

(** ** The connection accessor *)

Section Accessor.

Context {D : DuckDB}.
Implicit Types st : state D.

Lemma accessor_existing st h :
  _duckdb_connection st = Some h -> duckdb_connection st = (st, inr h).
Proof.
  intros H. unfold duckdb_connection, bind, get_connection_field.
  now rewrite H.
Qed.

Lemma accessor_connect_fails st g e :
  _duckdb_connection st = None ->
  connect D (db_path st) (eng st) = (g, inl e) ->
  duckdb_connection st
  = (emit (Connect (db_path st) None) (set_eng g st), inl e).
Proof.
  intros H Hc.
  unfold duckdb_connection, bind, get_connection_field, get_db_path,
    duckdb_connect.
  now rewrite H, Hc.
Qed.

Lemma accessor_connect_ok st g c :
  _duckdb_connection st = None ->
  connect D (db_path st) (eng st) = (g, inr c) ->
  duckdb_connection st
  = (match httpfs_setup c (connected st g c) with
     | (st2, inr _) => st2
     | (st2, inl e) =>
         emit (Log WARNING httpfs_warning)
              (emit (Log EXCEPTION (exn_str e)) st2)
     end, inr c).
Proof.
  intros H Hc.
  unfold duckdb_connection, bind, get_connection_field, get_db_path,
    duckdb_connect, set_connection_field, try_except, logger, ret.
  rewrite H, Hc.
  now destruct (httpfs_setup c _) as [st2 [e|u]].
Qed.

(** The setup submits a prefix of its three statements to [c] and
    touches nothing but the engine and the trace. *)
Lemma httpfs_setup_spec c st :
  exists g pre post,
    setup_statements (s3_region st) = (pre ++ post)%list /\
    fst (httpfs_setup c st)
    = State (db_path st) (s3_region st) (_duckdb_connection st) g
            (trace st ++ map (Sql c) pre).
Proof.
  unfold httpfs_setup, bind, conn_sql, get_s3_region, ret, setup_statements,
    emit, set_eng.
  destruct (sql D c "INSTALL httpfs;" (eng st)) as [g1 [e1|r1]]; simpl.
  { exists g1, ["INSTALL httpfs;"],
      ["LOAD httpfs;"; "SET s3_region='" ++ s3_region st ++ "';"].
    split; reflexivity. }
  destruct (sql D c "LOAD httpfs;" g1) as [g2 [e2|r2]]; simpl.
  { exists g2, ["INSTALL httpfs;"; "LOAD httpfs;"],
      ["SET s3_region='" ++ s3_region st ++ "';"].
    split; [reflexivity|]. now rewrite <- app_assoc. }
  destruct (sql D c _ g2) as [g3 [e3|r3]]; simpl;
    exists g3, (setup_statements (s3_region st)), [];
    (split; [reflexivity | simpl; rewrite <- ?app_assoc; reflexivity]).
Qed.

Lemma sql_calls_map_Sql (c : conn D) l :
  sql_calls (map (Sql c) l) = map (pair c) l.
Proof. induction l as [|x l IH]; simpl; [reflexivity | now rewrite IH]. Qed.

Lemma handles_created_map_Sql (c : conn D) l :
  handles_created (map (Sql c) l) = [].
Proof. induction l as [|x l IH]; simpl; [reflexivity | assumption]. Qed.

Lemma Forall_to_handle_pair (c : conn D) l :
  Forall (to_handle c) (map (pair c) l).
Proof. induction l; constructor; [reflexivity | assumption]. Qed.

(** What a first access leaves behind when [connect] succeeds. *)
Lemma accessor_creates st g c :
  _duckdb_connection st = None ->
  connect D (db_path st) (eng st) = (g, inr c) ->
  exists st' pre post logs,
    duckdb_connection st = (st', inr c) /\
    db_path st' = db_path st /\ s3_region st' = s3_region st /\
    _duckdb_connection st' = Some c /\
    setup_statements (s3_region st) = (pre ++ post)%list /\
    trace st'
    = (trace st ++ Connect (db_path st) (Some c) :: map (Sql c) pre
               ++ log_events logs)%list.
Proof.
  intros H Hc. rewrite (accessor_connect_ok _ _ _ H Hc).
  destruct (httpfs_setup_spec c (connected st g c))
    as (g' & pre & post & Hpre & Hst).
  destruct (httpfs_setup c (connected st g c)) as [st2 [e|u]];
    simpl in Hst; subst st2.
  - exists (emit (Log WARNING httpfs_warning)
              (emit (Log EXCEPTION (exn_str e))
                 (State (db_path st) (s3_region st) (Some c) g'
                    ((trace st ++ [Connect (db_path st) (Some c)])
                       ++ map (Sql c) pre)))),
      pre, post, [(EXCEPTION, exn_str e); (WARNING, httpfs_warning)].
    repeat split; try assumption. simpl.
    now rewrite <- !app_assoc.
  - exists (State (db_path st) (s3_region st) (Some c) g'
              ((trace st ++ [Connect (db_path st) (Some c)])
                 ++ map (Sql c) pre)),
      pre, post, [].
    repeat split; try assumption. simpl.
    now rewrite <- !app_assoc, app_nil_r.
Qed.

Lemma sql_calls_logs (logs : list (level * string)) :
  sql_calls (D := D) (log_events logs) = [].
Proof. induction logs; simpl; auto. Qed.

Lemma handles_created_logs (logs : list (level * string)) :
  handles_created (D := D) (log_events logs) = [].
Proof. induction logs; simpl; auto. Qed.

Lemma Step_accessor st : Step st (fst (duckdb_connection st)).
Proof.
  destruct (_duckdb_connection st) as [h|] eqn:H.
  - rewrite (accessor_existing _ _ H). apply Step_refl.
  - destruct (connect D (db_path st) (eng st)) as [g [e|c]] eqn:Hc.
    + rewrite (accessor_connect_fails _ _ _ H Hc). simpl.
      repeat split. exists [Connect (db_path st) None].
      split; [reflexivity|]. simpl. rewrite H. left. repeat split.
    + destruct (accessor_creates _ _ _ H Hc)
        as (st' & pre & post & logs & -> & Hp & Hr & Hf & _ & Ht).
      simpl. split; [assumption|]. split; [assumption|].
      eexists. split; [exact Ht|]. rewrite H. right. exists c.
      split; [assumption|]. simpl.
      rewrite handles_created_app, sql_calls_app, handles_created_map_Sql,
        sql_calls_map_Sql, sql_calls_logs, handles_created_logs, !app_nil_r.
      split; [reflexivity | apply Forall_to_handle_pair].
Qed.

(** The accessor answers with the handle it leaves in the field. *)
Lemma accessor_returns_field st st' h :
  duckdb_connection st = (st', inr h) -> _duckdb_connection st' = Some h.
Proof.
  intros Hr. destruct (_duckdb_connection st) as [h0|] eqn:H.
  - rewrite (accessor_existing _ _ H) in Hr. congruence.
  - destruct (connect D (db_path st) (eng st)) as [g [e|c]] eqn:Hc.
    + rewrite (accessor_connect_fails _ _ _ H Hc) in Hr. discriminate.
    + destruct (accessor_creates _ _ _ H Hc)
        as (st1 & pre & post & logs & Heq & _ & _ & Hf & _).
      rewrite Heq in Hr. congruence.
Qed.

End Accessor.

(** ** Execute Query, case by case *)

Section RunQuery.

Context {D : DuckDB}.
Implicit Types st : state D.

Lemma render_rows_from acc (rows : list (list (value D))) :
  fold_left append_row rows acc = (acc ++ map Spec.row_text rows)%list.
Proof.
  revert acc. induction rows as [|row rows IH]; intros acc; simpl.
  - now rewrite app_nil_r.
  - rewrite IH. unfold append_row, PyStr.join, Spec.row_text.
    destruct row as [|x [|y row]]; simpl; now rewrite <- app_assoc.
Qed.

Lemma render_rows_map (rows : list (list (value D))) :
  render_rows rows = map Spec.row_text rows.
Proof. apply render_rows_from. Qed.

(** What the call returns and the state it leaves, by what the engine
    does along the way. *)
Lemma run_cases query st :
  run_duckdb_query query st
  = match duckdb_connection (entering query st) with
    | (st1, inl e) => (st1, inr (exn_str e))
    | (st1, inr c) =>
        match sql D c (format_sql query) (eng st1) with
        | (g, inl e) =>
            (emit (Sql c (format_sql query)) (set_eng g st1),
             inr (exn_str e))
        | (g, inr None) =>
            (emit (Log DEBUG "Query result: No output")
                  (emit (Sql c (format_sql query)) (set_eng g st1)),
             inr "No output")
        | (g, inr (Some q)) =>
            let st2 := emit (Sql c (format_sql query)) (set_eng g st1) in
            let failed g' (e : exn) :=
              if is_AttributeError e then
                (emit (Log DEBUG ("Query result: " ++ str_relation D q))
                      (set_eng g' st2),
                 inr (str_relation D q))
              else (set_eng g' st2, inr (exn_str e)) in
            match fetchall D q g with
            | (g', inl e) => failed g' e
            | (g', inr rows) =>
                match columns D q with
                | inl e => failed g' e
                | inr cols =>
                    let out := Spec.table_text cols rows in
                    (emit (Log DEBUG ("Query result: " ++ out))
                          (set_eng g' st2),
                     inr out)
                end
            end
        end
    end.
Proof.
  unfold run_duckdb_query, try_except at 1, bind at 1, logger at 1.
  fold (entering query st).
  unfold bind at 1.
  destruct (duckdb_connection (entering query st)) as [st1 [e|c]].
  { unfold is_ProgrammingError, is_duckdb_Error, is_Exception, ret.
    now destruct e as [[] msg]. }
  unfold bind at 1, conn_sql.
  destruct (sql D c (format_sql query) (eng st1)) as [g [e|[q|]]].
  { unfold is_ProgrammingError, is_duckdb_Error, is_Exception, ret.
    now destruct e as [[] msg]. }
  2: { reflexivity. }
  unfold bind at 1, flatten_result, try_except, bind at 1, rel_fetchall.
  cbn [eng emit set_eng].
  destruct (fetchall D q g) as [g' [e|rows]].
  { unfold is_AttributeError, is_ProgrammingError, is_duckdb_Error,
      is_Exception, ret, bind, logger.
    now destruct e as [[] msg]. }
  unfold bind at 1, rel_columns.
  destruct (columns D q) as [e|cols].
  { unfold is_AttributeError, is_ProgrammingError, is_duckdb_Error,
      is_Exception, ret, bind, logger.
    now destruct e as [[] msg]. }
  unfold ret, bind, logger, Spec.table_text, PyStr.join.
  now rewrite render_rows_map.
Qed.

(** Execute Query always comes back with a string. *)
Lemma run_returns query st :
  exists st' out, run_duckdb_query query st = (st', inr out).
Proof.
  rewrite run_cases.
  destruct (duckdb_connection _) as [st1 [e|c]]; [eauto|].
  destruct (sql D c _ _) as [g [e|[q|]]]; [eauto| |eauto].
  cbv zeta.
  destruct (fetchall D q g) as [g' [e|rows]].
  { destruct (is_AttributeError e); eauto. }
  destruct (columns D q) as [e|cols]; [|eauto].
  destruct (is_AttributeError e); eauto.
Qed.

End RunQuery.

Section RunQueryTrace.

Context {D : DuckDB}.
Implicit Types st : state D.

(** When the accessor fails, the call ends in the accessor's state. *)
Lemma run_without_connection query st st1 e :
  duckdb_connection (entering query st) = (st1, inl e) ->
  run_duckdb_query query st = (st1, inr (exn_str e)).
Proof. intros H. now rewrite run_cases, H. Qed.

(** With a handle, the formatted statement is the one thing submitted
    after the accessor is done. *)
Lemma run_with_connection query st st1 c :
  duckdb_connection (entering query st) = (st1, inr c) ->
  exists g logs,
    fst (run_duckdb_query query st)
    = State (db_path st1) (s3_region st1) (_duckdb_connection st1) g
            (trace st1 ++ Sql c (format_sql query) :: log_events logs).
Proof.
  intros H. rewrite run_cases, H. unfold emit, set_eng, log_events.
  destruct (sql D c _ _) as [g [e|[q|]]].
  - exists g, []. reflexivity.
  - cbv zeta. destruct (fetchall D q g) as [g' [e|rows]].
    + destruct (is_AttributeError e).
      * exists g', [(DEBUG, "Query result: " ++ str_relation D q)].
        simpl. now rewrite <- app_assoc.
      * exists g', []. reflexivity.
    + destruct (columns D q) as [e|cols].
      * destruct (is_AttributeError e).
        -- exists g', [(DEBUG, "Query result: " ++ str_relation D q)].
           simpl. now rewrite <- app_assoc.
        -- exists g', []. reflexivity.
      * exists g', [(DEBUG, "Query result: " ++ Spec.table_text cols rows)].
        simpl. now rewrite <- app_assoc.
  - exists g, [(DEBUG, "Query result: No output")].
    simpl. now rewrite <- app_assoc.
Qed.

Lemma Step_run query st : Step st (fst (run_duckdb_query query st)).
Proof.
  apply Step_trans with (entering query st); [apply Step_log|].
  pose proof (Step_accessor (entering query st)) as Hacc.
  destruct (duckdb_connection (entering query st)) as [st1 [e|c]] eqn:H.
  - now rewrite (run_without_connection _ _ _ _ H).
  - apply Step_trans with st1; [exact Hacc|].
    destruct (run_with_connection _ _ _ _ H) as (g & logs & ->).
    pose proof (accessor_returns_field _ _ _ H) as Hf.
    repeat split. eexists. split; [reflexivity|]. rewrite Hf.
    split; [reflexivity|]. simpl. rewrite sql_calls_logs.
    split; [|repeat constructor].
    clear. induction logs; simpl; auto.
Qed.

(** The statements one call submits. *)
Lemma run_sql_calls query st :
  exists evs,
    trace (fst (run_duckdb_query query st)) = (trace st ++ evs)%list /\
    submits (format_sql query) st evs.
Proof.
  unfold submits.
  destruct (_duckdb_connection st) as [h|] eqn:Hf.
  - assert (H : duckdb_connection (entering query st)
                = (entering query st, inr h))
      by now apply accessor_existing.
    destruct (run_with_connection _ _ _ _ H) as (g & logs & ->).
    eexists. simpl. rewrite <- app_assoc. split; [reflexivity|].
    simpl. now rewrite sql_calls_logs.
  - destruct (connect D (db_path st) (eng st)) as [g [e|c]] eqn:Hc.
    + rewrite (run_without_connection query st _ e
                 (accessor_connect_fails (entering query st) g e Hf Hc)).
      eexists. simpl. rewrite <- app_assoc. split; [reflexivity|].
      left. split; reflexivity.
    + destruct (accessor_creates (entering query st) g c Hf Hc)
        as (st1 & pre & post & logs & H & Hp & Hr & Hf1 & Hpre & Ht).
      destruct (run_with_connection _ _ _ _ H) as (g' & logs' & ->).
      eexists. cbn [fst trace]. rewrite Ht. cbn [trace entering emit].
      rewrite <- !app_assoc. split; [reflexivity|].
      right. exists c, pre, post. cbn [app handles_created sql_calls].
      rewrite !handles_created_app, !sql_calls_app, handles_created_map_Sql,
        sql_calls_map_Sql, !sql_calls_logs, !handles_created_logs.
      cbn [app handles_created sql_calls].
      rewrite sql_calls_logs, handles_created_logs, app_nil_r.
      split; [reflexivity|]. split; [exact Hpre | reflexivity].
Qed.

End RunQueryTrace.

(** ** The operations built on Execute Query *)

Section Operations.

Context {D : DuckDB}.
Implicit Types st : state D.

Local Open Scope agent_scope.

(** Run a statement, log a line about its output, return something
    computed from it: the shape of every other operation. *)
Lemma run_then_log {A} stmt (msg : string -> string) (f : string -> A) st :
  exists st' out,
    run_duckdb_query stmt st = (st', inr out) /\
    (out <- run_duckdb_query stmt ;; logger DEBUG (msg out) ;; ret (f out)) st
    = (emit (Log DEBUG (msg out)) st', inr (f out)).
Proof.
  destruct (run_returns stmt st) as (st' & out & H).
  exists st', out. split; [assumption|].
  unfold bind, logger, ret. now rewrite H.
Qed.

(** A loader logs, runs its create statement through Execute Query, logs
    again and returns the name and the statement. *)
Lemma load_shape (before after stmt name : string) st :
  exists st' out,
    run_duckdb_query stmt (emit (Log DEBUG before) st) = (st', inr out) /\
    (logger DEBUG before ;; run_duckdb_query stmt ;;
     logger DEBUG after ;; ret (name, stmt)) st
    = (emit (Log DEBUG after) st', inr (name, stmt)).
Proof.
  destruct (run_returns stmt (emit (Log DEBUG before) st))
    as (st' & out & H).
  exists st', out. split; [assumption|].
  unfold bind, logger, ret. now rewrite H.
Qed.

Lemma Step_run_then_log {A} stmt msg (f : string -> A) st :
  Step st (fst ((out <- run_duckdb_query stmt ;;
                 logger DEBUG (msg out) ;; ret (f out)) st)).
Proof.
  destruct (run_then_log stmt msg f st) as (st' & out & Hrun & ->).
  apply Step_trans with st'; [|apply Step_log].
  change st' with (fst (st', @inr exn string out)). rewrite <- Hrun.
  apply Step_run.
Qed.

Lemma Step_load (before after stmt name : string) st :
  Step st (fst ((logger DEBUG before ;; run_duckdb_query stmt ;;
                 logger DEBUG after ;; ret (name, stmt)) st)).
Proof.
  destruct (load_shape before after stmt name st) as (st' & out & Hrun & ->).
  apply Step_trans with (emit (Log DEBUG before) st); [apply Step_log|].
  apply Step_trans with st'; [|apply Step_log].
  change st' with (fst (st', @inr exn string out)). rewrite <- Hrun.
  apply Step_run.
Qed.

Lemma Step_perform (c : call) st : Step st (perform c st).
Proof.
  destruct c; simpl.
  - apply Step_accessor.
  - apply Step_run.
  - apply (Step_run_then_log _ (fun t => "Tables: " ++ t) (fun t => t)).
  - apply (Step_run_then_log _ (fun t => "Table description: " ++ t)
             (fun t => table ++ PyStr.nl ++ t)).
  - apply (Step_run_then_log _ (fun t => "Explain plan: " ++ t)
             (fun t => t)).
  - apply (Step_run_then_log _ (fun t => "Table description: " ++ t)
             (fun t => table ++ PyStr.nl ++ t)).
  - apply Step_load.
  - apply Step_load.
  - apply Step_load.
  - apply Step_load.
Qed.

Lemma Step_perform_all (cs : list call) st : Step st (perform_all cs st).
Proof.
  revert st. induction cs as [|c cs IH]; intros st; simpl.
  - apply Step_refl.
  - apply Step_trans with (perform c st); [apply Step_perform | apply IH].
Qed.

End Operations.

(** * The claims *)

Section ExecuteQuery.

Context {D : DuckDB}.
Implicit Types st : state D.


(** C2.  When the engine answers with a table, Execute Query returns the
    comma-joined column names, a newline, and the newline-joined rows,
    where a row of one value is rendered as that value's text and a row
    of several values as their texts joined by commas in column
    order. *)
Theorem run_duckdb_query_flattens_table query st st1 c g q g' rows cols :
  duckdb_connection (entering query st) = (st1, inr c) ->
  sql D c (format_sql query) (eng st1) = (g, inr (Some q)) ->
  fetchall D q g = (g', inr rows) ->
  columns D q = inr cols ->
  snd (run_duckdb_query query st)
  = inr (PyStr.join "," cols ++ PyStr.nl
           ++ PyStr.join PyStr.nl (render_rows rows))
  /\ render_rows rows = map Spec.row_text rows
  /\ (forall acc x, append_row acc [x] = (acc ++ [str_value D x])%list)
  /\ (forall acc row,
         1 < List.length row ->
         append_row acc row
         = (acc ++ [PyStr.join "," (map (str_value D) row)])%list).
Proof.
  intros Hacc Hsql Hfetch Hcols.
  split.
  { rewrite run_cases, Hacc, Hsql. cbv zeta. rewrite Hfetch, Hcols.
    unfold Spec.table_text, PyStr.join. now rewrite render_rows_map. }
  split; [apply render_rows_map|].
  split; [reflexivity|].
  intros acc row Hlen. unfold append_row.
  destruct (Nat.eqb_spec (List.length row) 1) as [E|E]; [lia | reflexivity].
Qed.

(** C9.  When the engine answers with a table of zero rows, Execute
    Query, and List Tables through it, return the comma-joined header
    line followed by a newline and nothing else. *)
Theorem empty_table_header_only query st st1 c g q g' cols :
  duckdb_connection (entering query st) = (st1, inr c) ->
  sql D c (format_sql query) (eng st1) = (g, inr (Some q)) ->
  fetchall D q g = (g', inr []) ->
  columns D q = inr cols ->
  snd (run_duckdb_query query st) = inr (PyStr.join "," cols ++ PyStr.nl)
  /\ (query = "SHOW TABLES;" ->
      snd (show_tables st) = inr (PyStr.join "," cols ++ PyStr.nl)).
Proof.
  intros Hacc Hsql Hfetch Hcols.
  assert (Hrun : snd (run_duckdb_query query st)
                 = inr (PyStr.join "," cols ++ PyStr.nl)).
  { rewrite run_cases, Hacc, Hsql. cbv zeta. rewrite Hfetch, Hcols.
    reflexivity. }
  split; [exact Hrun|].
  intros ->. unfold show_tables.
  destruct (run_then_log "SHOW TABLES;" (fun t => "Tables: " ++ t)
              (fun t => t) st) as (st' & out & Hr & ->).
  rewrite Hr in Hrun. exact Hrun.
Qed.

(** C3, as amended.  Execute Query never raises: every call returns a
    string.  For every fault the engine raises while the statement is
    executed or while its result is materialised, the exception is not
    propagated and the string returned is the fault's message, except
    that an [AttributeError] raised while the result is materialised is
    answered with the text form of the result object. *)
Theorem run_duckdb_query_reports_faults query st :
  (exists st' out, run_duckdb_query query st = (st', inr out))
  /\ forall ph e,
       fault query st ph e ->
       snd (run_duckdb_query query st) = inr (reported ph e)
       /\ match ph with
          | Executing => reported ph e = exn_str e
          | Materialising q =>
              reported ph e
              = if is_AttributeError e then str_relation D q else exn_str e
          end.
Proof.
  split; [apply run_returns|].
  intros ph e Hf. split.
  - rewrite run_cases.
    destruct Hf as [st1 c g e H Hs | st1 c g q g' e H Hs Hq
                   | st1 c g q g' rows e H Hs Hq Hc];
      rewrite H, Hs; cbv zeta; try rewrite Hq; try rewrite Hc;
      simpl; try destruct (is_AttributeError e); reflexivity.
  - destruct ph; reflexivity.
Qed.

End ExecuteQuery.

Section Connection.

Context {D : DuckDB}.
Implicit Types st : state D.

Lemma logged_map_Sql lvl (c : conn D) l : logged lvl (map (Sql c) l) = [].
Proof. induction l; simpl; auto. Qed.

(** C4.  The connection accessor is a lazy singleton.  Once it has
    returned a handle, the next access returns the same handle from an
    unchanged state; after any further uses of the adapter the accessor
    still returns it, no [connect] has been called again and every
    statement has gone to that handle; and over any sequence of uses of
    a fresh adapter at most one handle is created. *)
Theorem duckdb_connection_lazy_singleton st st1 h (calls : list call) :
  duckdb_connection st = (st1, inr h) ->
  duckdb_connection st1 = (st1, inr h)
  /\ (let st2 := perform_all calls st1 in
      duckdb_connection st2 = (st2, inr h)
      /\ exists evs,
           trace st2 = (trace st1 ++ evs)%list
           /\ connect_calls evs = 0
           /\ Forall (to_handle h) (sql_calls evs))
  /\ (forall path region given (g : engine D) (calls' : list call),
         List.length
           (handles_created
              (trace (perform_all calls' (init path region given g)))) <= 1).
Proof.
  intros Hacc. pose proof (accessor_returns_field _ _ _ Hacc) as Hf.
  split; [now apply accessor_existing|]. split.
  - cbv zeta.
    destruct (Step_perform_all calls st1) as (_ & _ & evs & Ht & Hs).
    rewrite Hf in Hs. destruct Hs as (Hf2 & Hc & Hall).
    split; [now apply accessor_existing|].
    exists evs. repeat split; assumption.
  - intros path region given g calls'.
    destruct (Step_perform_all calls' (init path region given g))
      as (_ & _ & evs & Ht & Hs).
    rewrite Ht. simpl. simpl in Hs. destruct given as [h0|].
    + destruct Hs as (_ & Hc & _).
      rewrite (no_connect_no_handle _ Hc). simpl. lia.
    + destruct Hs as [(_ & -> & _) | (c & _ & -> & _)]; simpl; lia.
Qed.

(** C8.  When the handle has just been created and the setup (install
    and load the extension, set the region) raises, the accessor logs
    the exception and a warning and still returns the handle: nothing
    propagates, the handle is kept and serves the next access. *)
Theorem duckdb_connection_setup_failure_swallowed st g c st2 e :
  _duckdb_connection st = None ->
  connect D (db_path st) (eng st) = (g, inr c) ->
  httpfs_setup c (connected st g c) = (st2, inl e) ->
  let st' := emit (Log WARNING httpfs_warning)
                  (emit (Log EXCEPTION (exn_str e)) st2) in
  duckdb_connection st = (st', inr c)
  /\ _duckdb_connection st' = Some c
  /\ duckdb_connection st' = (st', inr c)
  /\ logged EXCEPTION (trace st')
     = (logged EXCEPTION (trace st) ++ [exn_str e])%list
  /\ logged WARNING (trace st')
     = (logged WARNING (trace st) ++ [httpfs_warning])%list.
Proof.
  intros Hf Hc Hsetup st'.
  assert (Hacc : duckdb_connection st = (st', inr c)).
  { rewrite (accessor_connect_ok _ _ _ Hf Hc). now rewrite Hsetup. }
  pose proof (accessor_returns_field _ _ _ Hacc) as Hf'.
  split; [exact Hacc|]. split; [exact Hf'|].
  split; [now apply accessor_existing|].
  destruct (httpfs_setup_spec c (connected st g c))
    as (g' & pre & post & _ & Hst).
  rewrite Hsetup in Hst. simpl in Hst. subst st2. subst st'. simpl.
  rewrite !logged_app, !logged_map_Sql. simpl.
  now rewrite !app_nil_r.
Qed.

End Connection.

Section Loaders.

Context {D : DuckDB}.
Implicit Types st : state D.

Local Open Scope agent_scope.

Lemma loads_shape (before after stmt name : string) :
  loads (D := D)
    (logger DEBUG before ;; run_duckdb_query stmt ;;
     logger DEBUG after ;; ret (name, stmt)) name stmt.
Proof.
  intros st.
  destruct (load_shape before after stmt name st) as (st' & out & Hrun & ->).
  split; [reflexivity|].
  destruct (run_sql_calls stmt (emit (Log DEBUG before) st))
    as (evs & Ht & Hs).
  rewrite Hrun in Ht. simpl in Ht.
  exists (Log DEBUG before :: evs ++ [Log DEBUG after])%list.
  split.
  { simpl. rewrite Ht, <- !app_assoc. reflexivity. }
  unfold submits in *. simpl in Hs. simpl.
  rewrite sql_calls_app, handles_created_app. simpl. rewrite !app_nil_r.
  exact Hs.
Qed.

Lemma semicolon_in_path_statement name path :
  PyStr.contains PyStr.semicolon (path_create_statement name path) = true.
Proof.
  unfold path_create_statement. rewrite !contains_app. simpl.
  now rewrite !orb_true_r.
Qed.

Lemma semicolon_in_csv_statement name path delimiter :
  PyStr.contains PyStr.semicolon (csv_create_statement name path delimiter)
  = true.
Proof.
  unfold csv_create_statement. rewrite !contains_app. simpl.
  now rewrite !orb_true_r.
Qed.

(** Each load operation returns the table name together with the create
    statement it built and passed to Execute Query.  What the engine is
    sent is that statement as Execute Query formats it, so never the
    returned text itself, which ends in a semicolon. *)
Lemma loaders_return_built_statement path table_name delimiter :
  let name := choose_table_name path table_name in
  loads (D := D) (load_local_path_to_table path table_name)
        name (path_create_statement name path)
  /\ loads (D := D) (load_local_csv_to_table path table_name delimiter)
           name (csv_create_statement name path delimiter)
  /\ loads (D := D) (load_s3_path_to_table path table_name)
           name (path_create_statement name path)
  /\ loads (D := D) (load_s3_csv_to_table path table_name delimiter)
           name (csv_create_statement name path delimiter)
  /\ String.eqb (format_sql (path_create_statement name path))
                (path_create_statement name path) = false
  /\ String.eqb (format_sql (csv_create_statement name path delimiter))
                (csv_create_statement name path delimiter) = false.
Proof.
  intros name.
  assert (Hne : forall stmt,
             PyStr.contains PyStr.semicolon stmt = true ->
             String.eqb (format_sql stmt) stmt = false).
  { intros stmt Hs. apply String.eqb_neq. intros Heq.
    rewrite <- Heq, format_sql_spec, before_first_stops in Hs.
    discriminate. }
  repeat split; try apply loads_shape; apply Hne.
  - apply semicolon_in_path_statement.
  - apply semicolon_in_csv_statement.
Qed.

(** C6.  The table name a load operation derives from a path never
    contains a hyphen, a period, a space or a forward slash, and it is
    the name each of the four loaders returns when none is given; the
    path [.../my-data file.csv] derives [my_data_file]. *)
Theorem derived_table_name_sanitised path delimiter st :
  PyStr.contains PyStr.hyphen (derive_table_name path) = false
  /\ PyStr.contains PyStr.period (derive_table_name path) = false
  /\ PyStr.contains PyStr.space (derive_table_name path) = false
  /\ PyStr.contains PyStr.slash (derive_table_name path) = false
  /\ (exists stmt, snd (load_local_path_to_table path None st)
                   = inr (derive_table_name path, stmt))
  /\ (exists stmt, snd (load_local_csv_to_table path None delimiter st)
                   = inr (derive_table_name path, stmt))
  /\ (exists stmt, snd (load_s3_path_to_table path None st)
                   = inr (derive_table_name path, stmt))
  /\ (exists stmt, snd (load_s3_csv_to_table path None delimiter st)
                   = inr (derive_table_name path, stmt))
  /\ derive_table_name ".../my-data file.csv" = "my_data_file".
Proof.
  repeat split;
    try (apply derive_table_name_clean; [reflexivity | tauto]);
    eexists; apply (proj1 (loads_shape _ _ _ _ st)).
Qed.

(** C10.  A table name supplied by the caller is used as it is by every
    load operation: it is the name returned, and it stands unchanged
    between the quotes of the create statement. *)
Theorem explicit_table_name_verbatim given path delimiter st :
  choose_table_name path (Some given) = given
  /\ snd (load_local_path_to_table path (Some given) st)
     = inr (given,
            "CREATE OR REPLACE TABLE '" ++ given
              ++ "' AS SELECT * FROM '" ++ path ++ "';")
  /\ snd (load_local_csv_to_table path (Some given) delimiter st)
     = inr (given,
            "CREATE OR REPLACE TABLE '" ++ given ++ "' AS "
              ++ csv_select_statement path delimiter ++ ";")
  /\ snd (load_s3_path_to_table path (Some given) st)
     = inr (given,
            "CREATE OR REPLACE TABLE '" ++ given
              ++ "' AS SELECT * FROM '" ++ path ++ "';")
  /\ snd (load_s3_csv_to_table path (Some given) delimiter st)
     = inr (given,
            "CREATE OR REPLACE TABLE '" ++ given ++ "' AS "
              ++ csv_select_statement path delimiter ++ ";").
Proof.
  repeat split; apply (proj1 (loads_shape _ _ _ _ st)).
Qed.

(** C7.  Describe Table returns the identifier as given, a newline, and
    then the text Execute Query produces for the statement
    [DESCRIBE <identifier>;]. *)
Theorem describe_table_first_line table st :
  exists st' description,
    run_duckdb_query ("DESCRIBE " ++ table ++ ";") st
    = (st', inr description)
    /\ snd (describe_table table st)
       = inr (table ++ PyStr.nl ++ description).
Proof.
  destruct (run_then_log ("DESCRIBE " ++ table ++ ";")
              (fun t => "Table description: " ++ t)
              (fun t => table ++ PyStr.nl ++ t) st)
    as (st' & out & Hrun & Hd).
  exists st', out. split; [exact Hrun|].
  unfold describe_table. now rewrite Hd.
Qed.

End Loaders.

(** * The claims on a running engine *)

Section Instances.

Let empty_db := toy true empty_db_answer.

(** Listing the tables of an empty database. *)
Lemma empty_table_header_only_witness :
  let st := toy_fresh true empty_db_answer in
  let st1 := fst (duckdb_connection (entering "SHOW TABLES;" st)) in
  duckdb_connection (entering "SHOW TABLES;" st) = (st1, inr 0)
  /\ snd (run_duckdb_query "SHOW TABLES;" st) = inr ("name" ++ PyStr.nl)
  /\ snd (show_tables st) = inr ("name" ++ PyStr.nl).
Proof.
  intros st st1.
  assert (Hacc : duckdb_connection (entering "SHOW TABLES;" st)
                 = (st1, inr 0)) by reflexivity.
  split; [exact Hacc|].
  destruct (empty_table_header_only (D := empty_db) "SHOW TABLES;" st st1
              0 1 (ToyRelation (inr ["name"]) (inr []) "<relation>") 1
              ["name"] Hacc eq_refl eq_refl eq_refl) as [Hrun Hshow].
  split; [exact Hrun | exact (Hshow eq_refl)].
Defined.

(** A two-column table. *)
Lemma run_duckdb_query_flattens_table_witness :
  let st := toy_fresh true people_answer in
  let st1 := fst (duckdb_connection (entering "SELECT * FROM people;" st)) in
  duckdb_connection (entering "SELECT * FROM people;" st) = (st1, inr 0)
  /\ snd (run_duckdb_query "SELECT * FROM people;" st)
     = inr ("id,name" ++ PyStr.nl ++ "1,ada" ++ PyStr.nl ++ "2,bob").
Proof.
  intros st st1.
  assert (Hacc : duckdb_connection (entering "SELECT * FROM people;" st)
                 = (st1, inr 0)) by reflexivity.
  split; [exact Hacc|].
  exact (proj1 (run_duckdb_query_flattens_table
                  (D := toy true people_answer)
                  "SELECT * FROM people;" st st1 0 1 people 1
                  [["1"; "ada"]; ["2"; "bob"]] ["id"; "name"]
                  Hacc eq_refl eq_refl eq_refl)).
Defined.

(** Querying a table that does not exist. *)
Lemma run_duckdb_query_reports_faults_witness :
  let st := toy_fresh true empty_db_answer in
  let e := Exn DuckDBError "Catalog Error: Table does not exist!" in
  fault "SELECT * FROM missing" st Executing e
  /\ snd (run_duckdb_query "SELECT * FROM missing" st)
     = inr "Catalog Error: Table does not exist!".
Proof.
  intros st e.
  assert (Hf : fault "SELECT * FROM missing" st Executing e).
  { apply (fault_sql (D := empty_db) "SELECT * FROM missing" st
             (fst (duckdb_connection (entering "SELECT * FROM missing" st)))
             0 1 e); reflexivity. }
  split; [exact Hf|].
  exact (proj1 (proj2 (run_duckdb_query_reports_faults (D := empty_db)
                         "SELECT * FROM missing" st) Executing e Hf)).
Defined.

(** C3, as first stated, fails: a result object whose [fetchall] raises
    an [AttributeError] is answered with the object's text form, not
    with the fault's message. *)
Lemma fetch_attribute_error_not_reported :
  let st := toy_fresh true opaque_answer in
  let e := Exn AttributeError "no attribute fetchall" in
  fault "SELECT 1" st
        (@Materialising (toy true opaque_answer) opaque_result) e
  /\ snd (run_duckdb_query "SELECT 1" st) = inr "<opaque result>"
  /\ snd (run_duckdb_query "SELECT 1" st) <> inr (exn_str e).
Proof.
  intros st e. split; [|split].
  - apply (fault_fetchall (D := toy true opaque_answer) "SELECT 1" st
             (fst (duckdb_connection (entering "SELECT 1" st)))
             0 1 opaque_result 1 e); reflexivity.
  - reflexivity.
  - discriminate.
Qed.

(** Two accesses and a few operations on one adapter. *)
Lemma duckdb_connection_lazy_singleton_witness :
  let st := toy_fresh true empty_db_answer in
  let st1 := fst (duckdb_connection st) in
  let calls := [ShowTables; DescribeTable "t";
                LoadLocalPath "a/b.csv" None; GetConnection] in
  duckdb_connection st = (st1, inr 0)
  /\ duckdb_connection st1 = (st1, inr 0)
  /\ duckdb_connection (perform_all calls st1)
     = (perform_all calls st1, inr 0).
Proof.
  intros st st1 calls.
  assert (Hacc : duckdb_connection st = (st1, inr 0)) by reflexivity.
  destruct (duckdb_connection_lazy_singleton (D := empty_db) st st1 0 calls
              Hacc) as (Hsame & (Hlater & _) & _).
  split; [exact Hacc|]. split; [exact Hsame | exact Hlater].
Defined.

(** The extension cannot be installed. *)
Lemma duckdb_connection_setup_failure_swallowed_witness :
  let st := toy_fresh true empty_db_answer in
  let e := Exn DuckDBError "IO Error: Failed to download extension" in
  let st2 := fst (httpfs_setup (D := empty_db) 0 (connected st 1 0)) in
  httpfs_setup (D := empty_db) 0 (connected st 1 0) = (st2, inl e)
  /\ snd (duckdb_connection st) = inr 0
  /\ logged WARNING (trace (fst (duckdb_connection st))) = [httpfs_warning].
Proof.
  intros st e st2.
  assert (Hs : httpfs_setup (D := empty_db) 0 (connected st 1 0)
               = (st2, inl e)) by reflexivity.
  destruct (duckdb_connection_setup_failure_swallowed (D := empty_db)
              st 1 0 st2 e eq_refl eq_refl Hs)
    as (Hacc & _ & _ & _ & Hw).
  split; [exact Hs|]. split; [exact (f_equal snd Hacc)|].
  exact (eq_trans
           (f_equal (fun r => logged WARNING (trace (fst r))) Hacc) Hw).
Defined.

(** C5.  The loaders are documented to return the table name and the
    SQL statement used to load the file.  For the path
    [logs/my`data.csv] the code does not: the statement it returns was
    never sent to the engine, and the one sent names another table and
    another file. *)
Lemma load_returns_other_than_submitted :
  let st := toy_fresh true empty_db_answer in
  let r := load_local_path_to_table "logs/my`data.csv" None st in
  let returned :=
    "CREATE OR REPLACE TABLE 'my`data' AS SELECT * FROM 'logs/my`data.csv';" in
  snd r = inr ("my`data", returned)
  /\ sql_calls (trace (fst r))
     = [(0, "INSTALL httpfs;");
        (0, "CREATE OR REPLACE TABLE 'mydata' AS SELECT * FROM 'logs/mydata.csv'")]
  /\ ~ In (0, returned) (sql_calls (trace (fst r))).
Proof.
  intros st r returned. split; [reflexivity|].
  assert (Hcalls : sql_calls (trace (fst r))
                   = [(0, "INSTALL httpfs;");
                      (0, "CREATE OR REPLACE TABLE 'mydata' AS SELECT * FROM 'logs/mydata.csv'")])
    by reflexivity.
  split; [exact Hcalls|]. rewrite Hcalls.
  intros [H | [H | []]]; discriminate H.
Qed.

End Instances.


(** * Further properties of the adapter *)

(** ** More on strings *)

Section MoreStringFacts.

Import PyStr.

Lemma without_app c a b :
  Spec.without c (a ++ b) = Spec.without c a ++ Spec.without c b.
Proof.
  induction a as [|x a IH]; simpl; [reflexivity|].
  destruct (Ascii.eqb x c); simpl; now rewrite IH.
Qed.

Lemma before_first_app_absent c a b :
  contains c a = false ->
  Spec.before_first c (a ++ b) = a ++ Spec.before_first c b.
Proof.
  induction a as [|x a IH]; simpl; [reflexivity|]. intros H.
  apply orb_false_iff in H as [Hx Ha]. now rewrite Hx, IH.
Qed.

Lemma before_first_app_sep c a b :
  Spec.before_first c (a ++ String c b) = Spec.before_first c a.
Proof.
  induction a as [|x a IH]; simpl.
  - now rewrite Ascii.eqb_refl.
  - destruct (Ascii.eqb x c); [reflexivity | now rewrite IH].
Qed.

Lemma replace_absent old new s :
  contains old s = false -> replace old new s = s.
Proof.
  induction s as [|x s IH]; simpl; [reflexivity|]. intros H.
  apply orb_false_iff in H as [Hx Hs]. now rewrite Hx, IH.
Qed.

Lemma split_absent sep s : contains sep s = false -> split sep s = [s].
Proof.
  induction s as [|x s IH]; simpl; [reflexivity|]. intros H.
  apply orb_false_iff in H as [Hx Hs]. now rewrite Hx, IH.
Qed.

Lemma split_app_sep sep a b :
  exists l, l <> [] /\ split sep (a ++ String sep b) = (l ++ split sep b)%list.
Proof.
  induction a as [|x a (l & Hl & IH)]; simpl.
  - rewrite Ascii.eqb_refl. exists [EmptyString]. split; [discriminate|].
    reflexivity.
  - rewrite IH. destruct (Ascii.eqb x sep).
    + exists (EmptyString :: l). split; [discriminate | reflexivity].
    + destruct l as [|w l]; [contradiction|].
      exists (String x w :: l). split; [discriminate | reflexivity].
Qed.

Lemma last_app_right {A} (l m : list A) d : m <> [] -> last (l ++ m) d = last m d.
Proof.
  intros Hm. induction l as [|x l IH]; [reflexivity|].
  simpl. rewrite IH. destruct (l ++ m)%list eqn:E; [|reflexivity].
  apply app_eq_nil in E as [_ ->]. contradiction.
Qed.

Lemma final_split_app_sep sep a b :
  final (split sep (a ++ String sep b)) = final (split sep b).
Proof.
  destruct (split_app_sep sep a b) as (l & _ & ->).
  apply last_app_right, split_not_nil.
Qed.

Lemma rfind_from_absent c s i best :
  contains c s = false -> rfind_from c s i best = best.
Proof.
  revert i best. induction s as [|x s IH]; intros i best; simpl;
    [reflexivity|].
  intros H. apply orb_false_iff in H as [Hx Hs]. now rewrite Hx, IH.
Qed.

Lemma rfind_from_last c a b i best :
  contains c b = false ->
  rfind_from c (a ++ String c b) i best = (i + Z.of_nat (String.length a))%Z.
Proof.
  intros Hb. revert i best.
  induction a as [|x a IH]; intros i best.
  - simpl. rewrite Ascii.eqb_refl, rfind_from_absent by assumption. lia.
  - cbn [append rfind_from String.length]. rewrite IH. lia.
Qed.

Lemma substring_prefix a b : substring 0 (String.length a) (a ++ b) = a.
Proof.
  induction a as [|x a IH]; simpl.
  - now destruct b.
  - now rewrite IH.
Qed.

End MoreStringFacts.

(** ** More on the formatting of queries *)

Lemma format_sql_cut a b : format_sql (a ++ String ";" b) = format_sql a.
Proof.
  rewrite !format_sql_spec, without_app. simpl.
  apply before_first_app_sep.
Qed.

Lemma format_sql_app_formatted a b :
  formatted a = true -> format_sql (a ++ b) = a ++ format_sql b.
Proof.
  unfold formatted. intros H. apply andb_true_iff in H as [Hs Hb].
  apply negb_true_iff in Hs, Hb.
  rewrite !format_sql_spec, without_app, (without_absent _ _ Hb).
  now apply before_first_app_absent.
Qed.

Lemma format_sql_formatted a : formatted a = true -> format_sql a = a.
Proof.
  unfold formatted. intros H. apply andb_true_iff in H as [Hs Hb].
  apply negb_true_iff in Hs, Hb.
  rewrite format_sql_spec, (without_absent _ _ Hb).
  now apply before_first_absent.
Qed.

Lemma format_sql_is_formatted query : formatted (format_sql query) = true.
Proof.
  unfold formatted. rewrite format_sql_spec.
  rewrite before_first_stops.
  now rewrite before_first_keeps_absent by apply without_removes.
Qed.


Section SameFormatting.

Context {D : DuckDB}.
Implicit Types st : state D.

(** A call of Execute Query is a function of the formatted text. *)
Lemma run_by_formatted q1 q2 st :
  format_sql q1 = format_sql q2 ->
  run_duckdb_query q1 st = run_duckdb_query q2 st.
Proof. intros H. unfold run_duckdb_query. now rewrite H. Qed.

(** X1.  Whatever follows the first semicolon of a query is ignored:
    the call leaves the same state and returns the same string as the
    call on the text before that semicolon. *)
Theorem run_duckdb_query_first_statement_only first rest st :
  run_duckdb_query (first ++ ";" ++ rest) st = run_duckdb_query first st.
Proof. apply run_by_formatted. apply format_sql_cut. Qed.

(** X2.  Formatting is idempotent and running the formatted text is the
    same as running the query: the backticks and the tail that Execute
    Query drops have no effect on the state it leaves or the string it
    returns. *)
Theorem run_duckdb_query_formatting_idempotent query st :
  format_sql (format_sql query) = format_sql query
  /\ run_duckdb_query (format_sql query) st = run_duckdb_query query st
  /\ run_duckdb_query (Spec.without PyStr.backtick query) st
     = run_duckdb_query query st.
Proof.
  assert (H : format_sql (format_sql query) = format_sql query)
    by apply format_sql_formatted, format_sql_is_formatted.
  split; [exact H|]. split; apply run_by_formatted; [exact H|].
  rewrite !format_sql_spec.
  now rewrite (without_absent _ (Spec.without _ _)) by apply without_removes.
Qed.

End SameFormatting.

(** ** More on the connection and on Execute Query *)

Section MoreConnection.

Context {D : DuckDB}.
Implicit Types st : state D.

Lemma connect_calls_map_Sql (c : conn D) l :
  connect_calls (map (Sql c) l) = 0.
Proof. induction l; simpl; auto. Qed.

Lemma connect_calls_logs (logs : list (level * string)) :
  connect_calls (D := D) (log_events logs) = 0.
Proof. induction logs; simpl; auto. Qed.

(** X3.  A statement for which the engine has no result object (it
    answers [None]) makes Execute Query return the placeholder
    [No output]; after the statement the call only logs that line. *)
Theorem run_duckdb_query_no_output query st st1 c g :
  duckdb_connection (entering query st) = (st1, inr c) ->
  sql D c (format_sql query) (eng st1) = (g, inr None) ->
  snd (run_duckdb_query query st) = inr "No output"
  /\ trace (fst (run_duckdb_query query st))
     = (trace st1 ++ [Sql c (format_sql query);
                      Log DEBUG "Query result: No output"])%list
  /\ eng (fst (run_duckdb_query query st)) = g.
Proof.
  intros Hacc Hsql. rewrite run_cases, Hacc, Hsql. simpl.
  now rewrite <- app_assoc.
Qed.

(** X4.  The accessor raises only when there is no handle yet and
    [connect] raises; it passes that exception on, records the attempt,
    leaves the field empty and has submitted nothing. *)
Theorem duckdb_connection_raises_only_on_connect st st' e :
  duckdb_connection st = (st', inl e) ->
  _duckdb_connection st = None
  /\ (exists g, connect D (db_path st) (eng st) = (g, inl e)
                /\ eng st' = g)
  /\ _duckdb_connection st' = None
  /\ trace st' = (trace st ++ [Connect (db_path st) None])%list.
Proof.
  intros H. destruct (_duckdb_connection st) as [h|] eqn:Hf.
  - rewrite (accessor_existing _ _ Hf) in H. discriminate.
  - destruct (connect D (db_path st) (eng st)) as [g [e0|c]] eqn:Hc.
    + rewrite (accessor_connect_fails _ _ _ Hf Hc) in H.
      injection H as <- <-. split; [reflexivity|].
      split; [exists g; split; reflexivity|]. split; [exact Hf | reflexivity].
    + destruct (accessor_creates _ _ _ Hf Hc)
        as (st1 & pre & post & logs & Heq & _).
      rewrite Heq in H. discriminate.
Qed.

Lemma run_connects_once st query :
  _duckdb_connection st = None ->
  connect_calls (trace (fst (run_duckdb_query query st)))
  = S (connect_calls (trace st)).
Proof.
  intros Hf.
  destruct (connect D (db_path st) (eng st)) as [g [e|c]] eqn:Hc.
  - rewrite (run_without_connection query st _ e
               (accessor_connect_fails (entering query st) g e Hf Hc)).
    simpl. rewrite !connect_calls_app. simpl. lia.
  - destruct (accessor_creates (entering query st) g c Hf Hc)
      as (st1 & pre & post & logs & H & _ & _ & _ & _ & Ht).
    destruct (run_with_connection _ _ _ _ H) as (g' & logs' & ->).
    cbn [fst trace]. rewrite Ht. cbn [trace entering emit].
    rewrite !connect_calls_app. cbn [connect_calls].
    rewrite !connect_calls_app, connect_calls_map_Sql, !connect_calls_logs.
    simpl. lia.
Qed.

(** X5.  When no handle can be had, Execute Query answers with the
    message of [connect]'s exception, submits nothing and leaves the
    adapter without a handle, so that the next query calls [connect]
    again. *)
Theorem run_duckdb_query_connect_failure query st g e :
  _duckdb_connection st = None ->
  connect D (db_path st) (eng st) = (g, inl e) ->
  let st' := fst (run_duckdb_query query st) in
  snd (run_duckdb_query query st) = inr (exn_str e)
  /\ _duckdb_connection st' = None
  /\ sql_calls (trace st') = sql_calls (trace st)
  /\ forall next,
       connect_calls (trace (fst (run_duckdb_query next st')))
       = 2 + connect_calls (trace st).
Proof.
  intros Hf Hc st'.
  assert (Hrun : run_duckdb_query query st
                 = (emit (Connect (db_path st) None)
                         (set_eng g (entering query st)), inr (exn_str e))).
  { apply run_without_connection.
    apply (accessor_connect_fails (entering query st) g e Hf Hc). }
  subst st'. rewrite Hrun. cbn [fst snd].
  split; [reflexivity|]. split; [exact Hf|]. split.
  - simpl. rewrite !sql_calls_app. simpl. now rewrite !app_nil_r.
  - intros next. rewrite run_connects_once by exact Hf.
    simpl. rewrite !connect_calls_app. simpl. lia.
Qed.

(** X6.  On a first access where [connect] and the three setup
    statements succeed, the accessor has submitted to the new handle
    [INSTALL httpfs;], [LOAD httpfs;] and [SET s3_region='<region>';],
    in this order and with the configured region put in as it is, logs
    nothing, and keeps the handle. *)
Theorem duckdb_connection_setup_success st g c g1 r1 g2 r2 g3 r3 :
  _duckdb_connection st = None ->
  connect D (db_path st) (eng st) = (g, inr c) ->
  sql D c "INSTALL httpfs;" g = (g1, inr r1) ->
  sql D c "LOAD httpfs;" g1 = (g2, inr r2) ->
  sql D c ("SET s3_region='" ++ s3_region st ++ "';") g2 = (g3, inr r3) ->
  duckdb_connection st
  = (State (db_path st) (s3_region st) (Some c) g3
           (trace st ++ [Connect (db_path st) (Some c);
                         Sql c "INSTALL httpfs;";
                         Sql c "LOAD httpfs;";
                         Sql c ("SET s3_region='" ++ s3_region st ++ "';")]),
     inr c).
Proof.
  intros Hf Hc H1 H2 H3. rewrite (accessor_connect_ok _ _ _ Hf Hc).
  unfold httpfs_setup, bind, conn_sql, get_s3_region, ret, connected.
  cbn [eng emit set_eng set_connection s3_region]. rewrite H1.
  cbn [eng emit set_eng set_connection s3_region]. rewrite H2.
  cbn [eng emit set_eng set_connection s3_region]. rewrite H3.
  unfold emit, set_eng, set_connection. simpl.
  now rewrite <- !app_assoc.
Qed.

(** The setup as a run of [submitted_until_failure] over its three
    statements. *)
Lemma httpfs_setup_attempts c st :
  httpfs_setup c st
  = (let '(l, g, r) :=
       submitted_until_failure c (setup_statements (s3_region st)) (eng st) in
     (State (db_path st) (s3_region st) (_duckdb_connection st) g
            (trace st ++ map (Sql c) l),
      match r with Some e => inl e | None => inr tt end)).
Proof.
  unfold httpfs_setup, bind, conn_sql, get_s3_region, ret, setup_statements,
    emit, set_eng.
  cbn [submitted_until_failure].
  destruct (sql D c "INSTALL httpfs;" (eng st)) as [g1 [e1|r1]];
    cbn [eng s3_region db_path _duckdb_connection trace]; [reflexivity|].
  destruct (sql D c "LOAD httpfs;" g1) as [g2 [e2|r2]];
    cbn [eng s3_region db_path _duckdb_connection trace].
  { simpl. now rewrite <- !app_assoc. }
  destruct (sql D c _ g2) as [g3 [e3|r3]];
    simpl; now rewrite <- !app_assoc.
Qed.

(** X7.  The setup stops at its first failure.  When [INSTALL httpfs;]
    raises, neither [LOAD httpfs;] nor the region setting is submitted;
    when [INSTALL httpfs;] succeeds and [LOAD httpfs;] raises, the
    region setting is not submitted; when only the region setting
    raises, all three have been submitted.  In each case the exception
    and the warning are logged after the failing statement, the handle
    is kept and returned. *)
Theorem duckdb_connection_setup_stops_at_first_failure st g c :
  _duckdb_connection st = None ->
  connect D (db_path st) (eng st) = (g, inr c) ->
  let region_stmt := "SET s3_region='" ++ s3_region st ++ "';" in
  let result g' stmts e :=
    (State (db_path st) (s3_region st) (Some c) g'
           (trace st ++ Connect (db_path st) (Some c) :: map (Sql c) stmts
              ++ [Log EXCEPTION (exn_str e); Log WARNING httpfs_warning]),
     @inr exn (conn D) c) in
  (forall g1 e,
      sql D c "INSTALL httpfs;" g = (g1, inl e) ->
      duckdb_connection st = result g1 ["INSTALL httpfs;"] e)
  /\ (forall g1 r1 g2 e,
        sql D c "INSTALL httpfs;" g = (g1, inr r1) ->
        sql D c "LOAD httpfs;" g1 = (g2, inl e) ->
        duckdb_connection st
        = result g2 ["INSTALL httpfs;"; "LOAD httpfs;"] e)
  /\ (forall g1 r1 g2 r2 g3 e,
        sql D c "INSTALL httpfs;" g = (g1, inr r1) ->
        sql D c "LOAD httpfs;" g1 = (g2, inr r2) ->
        sql D c region_stmt g2 = (g3, inl e) ->
        duckdb_connection st
        = result g3 ["INSTALL httpfs;"; "LOAD httpfs;"; region_stmt] e).
Proof.
  intros Hf Hc region_stmt result. subst region_stmt result.
  rewrite (accessor_connect_ok _ _ _ Hf Hc), httpfs_setup_attempts.
  cbn [connected emit set_eng set_connection
         s3_region eng db_path _duckdb_connection trace].
  unfold setup_statements. cbn [submitted_until_failure].
  split; [|split].
  - intros g1 e H1. rewrite H1. cbn [map]. unfold emit.
    cbn [db_path s3_region _duckdb_connection eng trace].
    now rewrite <- !app_assoc.
  - intros g1 r1 g2 e H1 H2. rewrite H1, H2. cbn [map]. unfold emit.
    cbn [db_path s3_region _duckdb_connection eng trace].
    now rewrite <- !app_assoc.
  - intros g1 r1 g2 r2 g3 e H1 H2 H3. rewrite H1, H2, H3. cbn [map]. unfold emit.
    cbn [db_path s3_region _duckdb_connection eng trace].
    now rewrite <- !app_assoc.
Qed.

(** X8.  Whenever [connect] succeeds on a first access, the query is
    submitted to the new handle whatever becomes of the setup: the call
    submits the three setup statements in order up to and including the
    first on which the engine raises (all three when none does), then
    the formatted query and nothing more, and the adapter holds the
    handle afterwards. *)
Theorem run_duckdb_query_first_access query st g c :
  _duckdb_connection st = None ->
  connect D (db_path st) (eng st) = (g, inr c) ->
  exists evs,
    trace (fst (run_duckdb_query query st)) = (trace st ++ evs)%list
    /\ sql_calls evs
       = (map (pair c)
              (fst (fst (submitted_until_failure c
                           (setup_statements (s3_region st)) g)))
            ++ [(c, format_sql query)])%list
    /\ _duckdb_connection (fst (run_duckdb_query query st)) = Some c.
Proof.
  intros Hf Hc.
  pose proof (accessor_connect_ok (entering query st) g c Hf Hc) as Hacc.
  rewrite httpfs_setup_attempts in Hacc.
  cbn [connected entering emit set_eng set_connection
         s3_region eng db_path _duckdb_connection trace] in Hacc.
  destruct (submitted_until_failure c (setup_statements (s3_region st)) g)
    as [[l g2] r].
  cbn [fst].
  destruct r as [e|]; cbv beta iota zeta in Hacc;
    destruct (run_with_connection _ _ _ _ Hacc) as (g' & logs' & ->);
    unfold emit; cbn [fst trace _duckdb_connection];
    (eexists; split;
     [rewrite <- !app_assoc; reflexivity
     | split; [|reflexivity];
       cbn [app sql_calls];
       rewrite !sql_calls_app, sql_calls_map_Sql;
       cbn [app sql_calls]; now rewrite ?sql_calls_logs, ?app_nil_r]).
Qed.

End MoreConnection.

(** ** A handle in place is kept, and only formatted statements pass *)

Section KeptFacts.

Context {D : DuckDB}.
Implicit Types (st : state D) (h : conn D).

Local Open Scope agent_scope.

Lemma Kept_refl h st : Kept h st st.
Proof.
  intros Hf. repeat split; [assumption|]. exists [].
  rewrite app_nil_r. repeat split. constructor.
Qed.

Lemma Kept_trans h a b c : Kept h a b -> Kept h b c -> Kept h a c.
Proof.
  intros Hab Hbc Hf.
  destruct (Hab Hf) as (Hfb & Hp1 & Hr1 & e1 & Ht1 & Hc1 & Hs1).
  destruct (Hbc Hfb) as (Hfc & Hp2 & Hr2 & e2 & Ht2 & Hc2 & Hs2).
  split; [assumption|]. split; [congruence|]. split; [congruence|].
  exists (e1 ++ e2)%list. split; [now rewrite Ht2, Ht1, app_assoc|].
  rewrite connect_calls_app, sql_calls_app.
  split; [lia | now apply Forall_app].
Qed.

Lemma Kept_log h lvl msg st : Kept h st (emit (Log lvl msg) st).
Proof.
  intros Hf. repeat split; [assumption|]. exists [Log lvl msg].
  repeat split. constructor.
Qed.

Lemma Kept_accessor h st : Kept h st (fst (duckdb_connection st)).
Proof.
  intros Hf. rewrite (accessor_existing _ _ Hf). now apply Kept_refl.
Qed.

Lemma Kept_run h query st : Kept h st (fst (run_duckdb_query query st)).
Proof.
  intros Hf.
  assert (H : duckdb_connection (entering query st)
              = (entering query st, inr h))
    by now apply accessor_existing.
  destruct (run_with_connection _ _ _ _ H) as (g & logs & ->).
  cbn [fst _duckdb_connection db_path s3_region trace entering emit].
  repeat split; [assumption|].
  eexists. rewrite <- app_assoc. split; [reflexivity|].
  cbn [app connect_calls sql_calls]. rewrite connect_calls_logs, sql_calls_logs.
  split; [reflexivity|].
  constructor; [|constructor].
  split; [reflexivity | apply format_sql_is_formatted].
Qed.

Lemma Kept_run_then_log {A} h stmt msg (f : string -> A) st :
  Kept h st (fst ((out <- run_duckdb_query stmt ;;
                   logger DEBUG (msg out) ;; ret (f out)) st)).
Proof.
  destruct (run_then_log stmt msg f st) as (st' & out & Hrun & ->).
  apply Kept_trans with st'; [|apply Kept_log].
  change st' with (fst (st', @inr exn string out)). rewrite <- Hrun.
  apply Kept_run.
Qed.

Lemma Kept_load h (before after stmt name : string) st :
  Kept h st (fst ((logger DEBUG before ;; run_duckdb_query stmt ;;
                   logger DEBUG after ;; ret (name, stmt)) st)).
Proof.
  destruct (load_shape before after stmt name st) as (st' & out & Hrun & ->).
  apply Kept_trans with (emit (Log DEBUG before) st); [apply Kept_log|].
  apply Kept_trans with st'; [|apply Kept_log].
  change st' with (fst (st', @inr exn string out)). rewrite <- Hrun.
  apply Kept_run.
Qed.

Lemma Kept_perform h (c : call) st : Kept h st (perform c st).
Proof.
  destruct c; simpl.
  - apply Kept_accessor.
  - apply Kept_run.
  - apply (Kept_run_then_log h _ (fun t => "Tables: " ++ t) (fun t => t)).
  - apply (Kept_run_then_log h _ (fun t => "Table description: " ++ t)
             (fun t => table ++ PyStr.nl ++ t)).
  - apply (Kept_run_then_log h _ (fun t => "Explain plan: " ++ t)
             (fun t => t)).
  - apply (Kept_run_then_log h _ (fun t => "Table description: " ++ t)
             (fun t => table ++ PyStr.nl ++ t)).
  - apply Kept_load.
  - apply Kept_load.
  - apply Kept_load.
  - apply Kept_load.
Qed.

Lemma Kept_perform_all h (cs : list call) st : Kept h st (perform_all cs st).
Proof.
  revert st. induction cs as [|c cs IH]; intros st; simpl.
  - apply Kept_refl.
  - apply Kept_trans with (perform c st); [apply Kept_perform | apply IH].
Qed.

Lemma setup_statement_not_formatted region s :
  In s (setup_statements region) -> formatted s = false.
Proof.
  intros [<- | [<- | [<- | []]]]; try reflexivity.
  unfold formatted. rewrite !contains_app. simpl.
  now rewrite !orb_true_r.
Qed.

(** X9.  With a handle in place (one given to the constructor, or one
    created earlier), no sequence of operations calls [connect], changes
    the handle or the configuration, or submits a statement that has a
    semicolon or a backtick in it; so the setup statements, which end in
    a semicolon, are never submitted for a handle the adapter did not
    create itself. *)
Theorem existing_handle_only_formatted_statements
        h (calls : list call) st :
  _duckdb_connection st = Some h ->
  let st' := perform_all calls st in
  _duckdb_connection st' = Some h
  /\ db_path st' = db_path st /\ s3_region st' = s3_region st
  /\ exists evs,
       trace st' = (trace st ++ evs)%list
       /\ connect_calls evs = 0
       /\ Forall (fun p => fst p = h /\ formatted (snd p) = true)
                 (sql_calls evs)
       /\ forall region s,
            In s (setup_statements region) -> ~ In (h, s) (sql_calls evs).
Proof.
  intros Hf st'.
  destruct (Kept_perform_all h calls st Hf)
    as (Hf' & Hp & Hr & evs & Ht & Hc & Hall).
  split; [exact Hf'|]. split; [exact Hp|]. split; [exact Hr|].
  exists evs. split; [exact Ht|]. split; [exact Hc|]. split; [exact Hall|].
  intros region s Hs Hin.
  rewrite Forall_forall in Hall. destruct (Hall _ Hin) as [_ Hfm].
  simpl in Hfm. rewrite (setup_statement_not_formatted _ _ Hs) in Hfm.
  discriminate.
Qed.

(** X10.  No operation other than the accessor raises: listing,
    describing, inspecting and the four loaders return a value in every
    state, also when the engine or [connect] fails. *)
Theorem operations_never_raise st table query path table_name delimiter :
  (exists st' out, show_tables st = (st', inr out))
  /\ (exists st' out, describe_table table st = (st', inr out))
  /\ (exists st' out, inspect_query query st = (st', inr out))
  /\ (exists st' out, describe_table_or_view table st = (st', inr out))
  /\ (exists st' out,
         load_local_path_to_table path table_name st = (st', inr out))
  /\ (exists st' out,
         load_local_csv_to_table path table_name delimiter st
         = (st', inr out))
  /\ (exists st' out,
         load_s3_path_to_table path table_name st = (st', inr out))
  /\ (exists st' out,
         load_s3_csv_to_table path table_name delimiter st = (st', inr out)).
Proof.
  repeat split.
  - destruct (run_then_log "SHOW TABLES;" (fun t => "Tables: " ++ t)
                (fun t => t) st) as (st' & out & _ & H).
    eexists _, _. exact H.
  - destruct (run_then_log ("DESCRIBE " ++ table ++ ";")
                (fun t => "Table description: " ++ t)
                (fun t => table ++ PyStr.nl ++ t) st) as (st' & out & _ & H).
    eexists _, _. exact H.
  - destruct (run_then_log ("explain " ++ query ++ ";")
                (fun t => "Explain plan: " ++ t)
                (fun t => t) st) as (st' & out & _ & H).
    eexists _, _. exact H.
  - destruct (run_then_log
                ("select column_name, data_type from information_schema.columns where table_name='"
                   ++ table ++ "';")
                (fun t => "Table description: " ++ t)
                (fun t => table ++ PyStr.nl ++ t) st) as (st' & out & _ & H).
    eexists _, _. exact H.
  - destruct (load_shape ("Loading " ++ path ++ " into duckdb")
                ("Loaded " ++ path ++ " into duckdb as "
                   ++ choose_table_name path table_name)
                (path_create_statement (choose_table_name path table_name)
                   path)
                (choose_table_name path table_name) st)
      as (st' & out & _ & H).
    eexists _, _. exact H.
  - destruct (load_shape ("Loading " ++ path ++ " into duckdb")
                ("Loaded CSV " ++ path ++ " into duckdb as "
                   ++ choose_table_name path table_name)
                (csv_create_statement (choose_table_name path table_name)
                   path delimiter)
                (choose_table_name path table_name) st)
      as (st' & out & _ & H).
    eexists _, _. exact H.
  - destruct (load_shape ("Loading " ++ path ++ " into duckdb")
                ("Loaded " ++ path ++ " into duckdb as "
                   ++ choose_table_name path table_name)
                (path_create_statement (choose_table_name path table_name)
                   path)
                (choose_table_name path table_name) st)
      as (st' & out & _ & H).
    eexists _, _. exact H.
  - destruct (load_shape ("Loading " ++ path ++ " into duckdb")
                ("Loaded CSV " ++ path ++ " into duckdb as "
                   ++ choose_table_name path table_name)
                (csv_create_statement (choose_table_name path table_name)
                   path delimiter)
                (choose_table_name path table_name) st)
      as (st' & out & _ & H).
    eexists _, _. exact H.
Qed.

End KeptFacts.

(** ** What the other operations submit *)

Lemma string_app_assoc (a b c : string) : (a ++ b) ++ c = a ++ b ++ c.
Proof. induction a as [|x a IH]; simpl; [reflexivity | now rewrite IH]. Qed.


Section Wrappers.

Context {D : DuckDB}.
Implicit Types st : state D.

Local Open Scope agent_scope.






End Wrappers.

(** ** The derived table name *)

Section DerivedName.

Import PyStr.

Lemma derive_table_name_last_segment dir name :
  derive_table_name (dir ++ "/" ++ name) = derive_table_name name.
Proof.
  unfold derive_table_name.
  change (dir ++ "/" ++ name) with (dir ++ String slash name).
  now rewrite final_split_app_sep.
Qed.

(** X14.  The derived table name depends on the last segment of the
    path only: the directories before the last slash play no part, so
    files of the same name in different directories share a table
    name. *)
Theorem derive_table_name_ignores_directory dir dir' name :
  derive_table_name (dir ++ "/" ++ name)
  = derive_table_name (dir' ++ "/" ++ name).
Proof. now rewrite !derive_table_name_last_segment. Qed.

Lemma splitext_stem x rest ext :
  Ascii.eqb x period = false ->
  contains slash (String x rest) = false ->
  contains slash ext = false ->
  contains period ext = false ->
  fst (splitext (String x rest ++ String period ext)) = String x rest.
Proof.
  intros Hx Hs Hes Hep. unfold splitext, rfind.
  rewrite (rfind_from_absent slash).
  2:{ rewrite contains_app, Hs. simpl. exact Hes. }
  rewrite (rfind_from_last period) by exact Hep.
  destruct (Z.gtb_spec (0 + Z.of_nat (String.length (String x rest))) (-1))
    as [_|Hle]; [|lia].
  replace (Z.to_nat (0 + Z.of_nat (String.length (String x rest)) - (-1 + 1)))
    with (S (String.length rest)) by (simpl String.length; lia).
  simpl has_non_dot. rewrite Hx. cbn [fst]. unfold slice_to.
  replace (Z.to_nat (0 + Z.of_nat (String.length (String x rest))))
    with (String.length (String x rest)) by lia.
  apply substring_prefix.
Qed.

(** X15.  For a file name [stem.ext] whose stem does not begin with a
    period and whose extension has no period in it, only the extension
    after the last period is dropped and the four replacements are
    applied to the stem; a stem free of hyphens, periods, spaces and
    slashes is the table name as it is. *)
Theorem derive_table_name_of_stem dir x rest ext :
  Ascii.eqb x period = false ->
  contains slash (String x rest) = false ->
  contains slash ext = false ->
  contains period ext = false ->
  let stem := String x rest in
  derive_table_name (dir ++ "/" ++ stem ++ "." ++ ext)
  = replace slash underscore
      (replace space underscore
         (replace period underscore (replace hyphen underscore stem)))
  /\ (contains hyphen stem = false -> contains period stem = false ->
      contains space stem = false ->
      derive_table_name (dir ++ "/" ++ stem ++ "." ++ ext) = stem).
Proof.
  intros Hx Hs Hes Hep stem.
  assert (H : derive_table_name (dir ++ "/" ++ stem ++ "." ++ ext)
              = replace slash underscore
                  (replace space underscore
                     (replace period underscore
                        (replace hyphen underscore stem)))).
  { rewrite derive_table_name_last_segment. unfold derive_table_name.
    change (stem ++ "." ++ ext) with (String x rest ++ String period ext).
    rewrite split_absent.
    2:{ rewrite contains_app, Hs. simpl. exact Hes. }
    unfold final. cbn [last].
    pose proof (splitext_stem x rest ext Hx Hs Hes Hep) as Hfst.
    destruct (splitext _) as [table_name extension]. simpl in Hfst.
    now subst table_name. }
  split; [exact H|].
  intros Hh Hp Hsp. rewrite H.
  rewrite (replace_absent hyphen) by exact Hh.
  rewrite (replace_absent period) by exact Hp.
  rewrite (replace_absent space) by exact Hsp.
  now rewrite (replace_absent slash) by exact Hs.
Qed.

End DerivedName.

Section DerivedNameEdges.

Context {D : DuckDB}.
Implicit Types st : state D.

Import PyStr.

(** X16.  A path that ends in a slash, like the empty path, has an empty
    last segment and derives the empty table name; the loader then
    builds its statement around the empty name and returns it. *)
Theorem derive_table_name_trailing_slash dir st :
  derive_table_name (dir ++ "/") = ""
  /\ derive_table_name "" = ""
  /\ snd (load_local_path_to_table (dir ++ "/") None st)
     = inr ("", "CREATE OR REPLACE TABLE '' AS SELECT * FROM '"
                  ++ (dir ++ "/") ++ "';").
Proof.
  assert (H : derive_table_name (dir ++ "/") = "")
    by apply (derive_table_name_last_segment dir "").
  split; [exact H|]. split; [reflexivity|].
  unfold load_local_path_to_table, choose_table_name. rewrite H.
  exact (proj1 (loads_shape _ _ _ _ st)).
Qed.

(** X17.  A file name that is a period followed by a name without
    periods has no extension for [splitext]: nothing is dropped, and the
    leading period becomes an underscore. *)
Theorem derive_table_name_dot_file dir ext :
  contains slash ext = false ->
  contains period ext = false ->
  contains hyphen ext = false ->
  contains space ext = false ->
  derive_table_name (dir ++ "/." ++ ext) = "_" ++ ext.
Proof.
  intros Hs Hp Hh Hsp.
  change (dir ++ "/." ++ ext) with (dir ++ "/" ++ String period ext).
  rewrite derive_table_name_last_segment. unfold derive_table_name.
  rewrite split_absent by (simpl; exact Hs).
  unfold final. cbn [last]. unfold splitext, rfind.
  rewrite (rfind_from_absent slash) by (simpl; exact Hs).
  simpl. rewrite (rfind_from_absent period) by exact Hp.
  simpl. rewrite (replace_absent hyphen) by exact Hh.
  rewrite (replace_absent period) by exact Hp.
  rewrite (replace_absent space) by exact Hsp.
  now rewrite (replace_absent slash) by exact Hs.
Qed.


(** X19.  A CSV delimiter with a semicolon in it cannot be passed on:
    the statement sent to the engine stops inside the delimiter's
    quotes, before the semicolon, and never closes the call of
    [read_csv]. *)
Theorem load_csv_semicolon_delimiter_cut
        path name table_name before_semicolon after_semicolon st :
  choose_table_name path table_name = name ->
  formatted name = true ->
  formatted path = true ->
  let delimiter := before_semicolon ++ ";" ++ after_semicolon in
  let sent := "CREATE OR REPLACE TABLE '" ++ name
                ++ "' AS SELECT * FROM read_csv('" ++ path
                ++ "', delim='" ++ format_sql before_semicolon in
  (exists evs,
      trace (fst (load_local_csv_to_table path table_name (Some delimiter) st))
      = (trace st ++ evs)%list /\ submits sent st evs)
  /\ (exists evs,
        trace (fst (load_s3_csv_to_table path table_name (Some delimiter) st))
        = (trace st ++ evs)%list /\ submits sent st evs).
Proof.
  intros Hname Hn Hp delimiter sent.
  assert (Hfmt : format_sql (csv_create_statement name path (Some delimiter))
                 = sent).
  { unfold csv_create_statement, csv_select_statement, delimiter, sent.
    rewrite !string_app_assoc.
    rewrite format_sql_app_formatted by reflexivity.
    rewrite format_sql_app_formatted by exact Hn.
    rewrite format_sql_app_formatted by reflexivity.
    rewrite format_sql_app_formatted by reflexivity.
    rewrite format_sql_app_formatted by exact Hp.
    rewrite format_sql_app_formatted by reflexivity.
    rewrite format_sql_app_formatted by reflexivity.
    change (before_semicolon ++ ";" ++ after_semicolon ++ "')" ++ ";")
      with (before_semicolon ++ String ";" (after_semicolon ++ "')" ++ ";")).
    now rewrite format_sql_cut. }
  rewrite <- Hfmt, <- Hname.
  split; apply (proj2 (loads_shape _ _ _ _ st)).
Qed.

End DerivedNameEdges.

(** * The further properties on a running engine *)

Section MoreInstances.

Let empty_db := toy true empty_db_answer.
Let people_db := toy true people_answer.
Let unreachable_db := toy false people_answer.

(** A statement without a result. *)
Lemma run_duckdb_query_no_output_witness :
  let st := toy_fresh true empty_db_answer in
  let query := "CREATE TABLE t (a INT); SELECT 1" in
  let st1 := fst (duckdb_connection (entering query st)) in
  duckdb_connection (entering query st) = (st1, inr 0)
  /\ snd (run_duckdb_query query st) = inr "No output".
Proof.
  intros st query st1.
  assert (Hacc : duckdb_connection (entering query st) = (st1, inr 0))
    by reflexivity.
  split; [exact Hacc|].
  exact (proj1 (run_duckdb_query_no_output (D := empty_db) query st st1 0 1
                  Hacc eq_refl)).
Defined.

(** A database file that cannot be opened. *)
Lemma duckdb_connection_raises_only_on_connect_witness :
  let st := toy_fresh false people_answer in
  let e := Exn DuckDBError "IO Error: Cannot open file :memory:" in
  duckdb_connection st = (fst (duckdb_connection st), inl e)
  /\ _duckdb_connection (fst (duckdb_connection st)) = None.
Proof.
  intros st e.
  assert (H : duckdb_connection st = (fst (duckdb_connection st), inl e))
    by reflexivity.
  split; [exact H|].
  exact (proj1 (proj2 (proj2 (duckdb_connection_raises_only_on_connect
                                (D := unreachable_db) st _ e H)))).
Defined.

Lemma run_duckdb_query_connect_failure_witness :
  let st := toy_fresh false people_answer in
  snd (run_duckdb_query "SELECT 1" st)
  = inr "IO Error: Cannot open file :memory:"
  /\ connect_calls
       (trace (fst (run_duckdb_query "SELECT 2"
                      (fst (run_duckdb_query "SELECT 1" st))))) = 2.
Proof.
  intros st.
  destruct (run_duckdb_query_connect_failure (D := unreachable_db)
              "SELECT 1" st 0
              (Exn DuckDBError "IO Error: Cannot open file :memory:")
              eq_refl eq_refl) as (Hout & _ & _ & Hnext).
  split; [exact Hout | exact (Hnext "SELECT 2")].
Defined.

(** An engine on which the whole setup succeeds. *)
Lemma duckdb_connection_setup_success_witness :
  let st := toy_fresh true people_answer in
  sql_calls (trace (fst (duckdb_connection st)))
  = [(0, "INSTALL httpfs;"); (0, "LOAD httpfs;");
     (0, "SET s3_region='us-east-1';")].
Proof.
  intros st.
  exact (f_equal (fun r => sql_calls (trace (fst r)))
           (duckdb_connection_setup_success (D := people_db) st 1 0
              1 (Some people) 1 (Some people) 1 (Some people)
              eq_refl eq_refl eq_refl eq_refl eq_refl)).
Defined.

(** An engine on which the extension installs but does not load. *)
Lemma duckdb_connection_setup_stops_at_first_failure_witness :
  let st := toy_fresh true no_load_answer in
  sql_calls (trace (fst (duckdb_connection st)))
  = [(0, "INSTALL httpfs;"); (0, "LOAD httpfs;")].
Proof.
  intros st.
  exact (f_equal (fun r => sql_calls (trace (fst r)))
           (proj1 (proj2 (duckdb_connection_setup_stops_at_first_failure
                            (D := toy true no_load_answer) st 1 0
                            eq_refl eq_refl))
              1 (Some people) 1
              (Exn DuckDBError "IO Error: Extension httpfs not found")
              eq_refl eq_refl)).
Defined.

(** A first query on an engine on which the extension cannot be
    installed. *)
Lemma run_duckdb_query_first_access_witness :
  let st := toy_fresh true empty_db_answer in
  sql_calls (trace (fst (run_duckdb_query "SHOW TABLES;" st)))
  = [(0, "INSTALL httpfs;"); (0, "SHOW TABLES")]
  /\ _duckdb_connection (fst (run_duckdb_query "SHOW TABLES;" st)) = Some 0.
Proof.
  intros st.
  destruct (run_duckdb_query_first_access (D := empty_db) "SHOW TABLES;" st
              1 0 eq_refl eq_refl) as (evs & Ht & Hs & H).
  split; [exact (eq_trans (f_equal sql_calls Ht) Hs) | exact H].
Defined.

(** An adapter built around a connection of the caller's. *)
Lemma existing_handle_only_formatted_statements_witness :
  let st := @init (toy true empty_db_answer) "warehouse.db" "eu-west-1"
                  (Some 7) 0 in
  let calls := [ShowTables; RunDuckdbQuery "INSTALL httpfs; LOAD httpfs;";
                LoadS3Csv "s3://b/k/x.csv" None (Some ";")] in
  _duckdb_connection st = Some 7
  /\ _duckdb_connection (perform_all calls st) = Some 7.
Proof.
  intros st calls.
  assert (Hf : _duckdb_connection st = Some 7) by reflexivity.
  split; [exact Hf|].
  exact (proj1 (existing_handle_only_formatted_statements (D := empty_db)
                  7 calls st Hf)).
Defined.

(** File names. *)
Lemma derive_table_name_of_stem_witness :
  derive_table_name ("s3://bucket/raw" ++ "/" ++ "sales" ++ "." ++ "parquet")
  = "sales".
Proof.
  exact (proj2 (derive_table_name_of_stem "s3://bucket/raw" "s" "ales"
                  "parquet" eq_refl eq_refl eq_refl eq_refl)
           eq_refl eq_refl eq_refl).
Defined.

Lemma derive_table_name_dot_file_witness :
  derive_table_name ("/home/u" ++ "/." ++ "env") = "_" ++ "env".
Proof.
  exact (derive_table_name_dot_file "/home/u" "env"
           eq_refl eq_refl eq_refl eq_refl).
Defined.


Lemma load_csv_semicolon_delimiter_cut_witness :
  let st := @init (toy true empty_db_answer) "warehouse.db" "eu-west-1"
                  (Some 7) 0 in
  sql_calls
    (trace (fst (load_local_csv_to_table "d.csv" (Some "t") (Some ";") st)))
  = [(7, "CREATE OR REPLACE TABLE 't' AS SELECT * FROM read_csv('d.csv', delim='")].
Proof.
  intros st.
  destruct (load_csv_semicolon_delimiter_cut (D := empty_db)
              "d.csv" "t" (Some "t") "" "" st eq_refl eq_refl eq_refl)
    as ((evs & Ht & Hs) & _).
  exact (eq_trans (f_equal sql_calls Ht) Hs).
Defined.

End MoreInstances.

(** ** Rows are joined without quoting *)

Section Flattening.

Context {D : DuckDB}.

(** X20.  Values are joined with commas and never quoted, so the text
    of a table does not determine its rows: a row of one value whose
    text has a comma in it is rendered like the row of the two values on
    either side of that comma, wherever it stands in the result. *)
Theorem render_rows_not_injective
        (x y z : value D) (above below : list (list (value D))) :
  str_value D x = str_value D y ++ "," ++ str_value D z ->
  render_rows (above ++ [x] :: below) = render_rows (above ++ [y; z] :: below)
  /\ List.length (render_rows (above ++ [x] :: below))
     = List.length (above ++ [x] :: below).
Proof.
  intros Hx. rewrite !render_rows_map, !map_app. simpl. rewrite Hx.
  split; [reflexivity|].
  rewrite !length_app. simpl. now rewrite !length_map.
Qed.

End Flattening.

Lemma render_rows_not_injective_witness :
  render_rows (D := toy true people_answer) [["1"]; ["ada,bob"]]
  = render_rows (D := toy true people_answer) [["1"]; ["ada"; "bob"]].
Proof.
  exact (proj1 (render_rows_not_injective (D := toy true people_answer)
                  "ada,bob" "ada" "bob" [["1"]] [] eq_refl)).
Defined.
